(** * Packs and streaming operators of madis: a shallow embedding

    The development follows [src/functions/row/jpacks.py] (the row
    functions over packs) and [src/functions/vtable/igroup.py] (the
    [igroup] virtual table).  Python values are an inductive type, Python
    exceptions are an explicit result type, dictionaries are [gmap]s,
    and a generator is the sequence of what it yields together with the
    way it ends. *)

From Stdlib Require Import ZArith NArith String Ascii List Decimal
  DecimalString DecimalN DecimalZ Sorted Permutation Lia.
From stdpp Require Import base option list gmap strings.

(** ** Python values *)

(** One decimal digit; the first digit of the fraction of a real. *)
Inductive digit : Set :=
  d0 | d1 | d2 | d3 | d4 | d5 | d6 | d7 | d8 | d9.

(** What [json.loads] returns and what SQLite passes to a row function:
    [None], [int], [float], text and [list].  A real is kept as the
    decimal literal it was written with (sign, integer part, first digit
    of the fraction, other digits of the fraction): binary rounding and
    exponent notation are outside the model. *)
Unset Elimination Schemes.
Inductive Value : Type :=
  | Null
  | Integer (n : Z)
  | Real (neg : bool) (whole : N) (fh : digit) (ft : uint)
  | Text (s : string)
  | Sequence (l : list Value).
Set Elimination Schemes.

(** The arguments SQLite hands to a row function: [int], [float] or
    text. *)
Inductive sqlval : Type :=
  | SqlInt (n : Z)
  | SqlReal (neg : bool) (whole : N) (fh : digit) (ft : uint)
  | SqlText (s : string).

(** Python exceptions that the modelled code can raise. *)
Inductive exn : Type :=
  | TypeError
  | IndexError
  | AttributeError
  | ValueError
  | StopIteration
  | DecodeError
  | OperatorError (operator message : string).

(** A call either returns or raises. *)
Inductive res (A : Type) : Type :=
  | Ok (a : A)
  | Raise (e : exn).
Arguments Ok {A} a.
Arguments Raise {A} e.

Definition res_bind {A B} (r : res A) (f : A -> res B) : res B :=
  match r with
  | Ok a => f a
  | Raise e => Raise e
  end.

Notation "x <- r ;; k" := (res_bind r (fun x => k))
  (at level 100, r at next level, right associativity).

Definition is_scalar (v : Value) : bool :=
  match v with
  | Sequence _ => false
  | _ => true
  end.

Definition is_text (v : Value) : bool :=
  match v with
  | Text _ => true
  | _ => false
  end.

(** ** Characters and decimal text *)

Module Chars.

Definition tab : ascii := "009".
Definition newline : ascii := "010".
Definition creturn : ascii := "013".
Definition backspace : ascii := "008".
Definition formfeed : ascii := "012".
Definition dquote : ascii := "034".
Definition squote : ascii := "039".
Definition backslash : ascii := "092".
Definition space : ascii := " ".

Definition code (c : ascii) : N := N_of_ascii c.

Definition is_space (c : ascii) : bool :=
  Ascii.eqb c space || Ascii.eqb c tab || Ascii.eqb c newline
  || Ascii.eqb c creturn.

Definition is_digit (c : ascii) : bool :=
  (48 <=? code c)%N && (code c <=? 57)%N.

End Chars.

Definition dcons (d : digit) (u : uint) : uint :=
  match d with
  | d0 => D0 u | d1 => D1 u | d2 => D2 u | d3 => D3 u | d4 => D4 u
  | d5 => D5 u | d6 => D6 u | d7 => D7 u | d8 => D8 u | d9 => D9 u
  end.

Definition duncons (u : uint) : option (digit * uint) :=
  match u with
  | Nil => None
  | D0 r => Some (d0, r) | D1 r => Some (d1, r) | D2 r => Some (d2, r)
  | D3 r => Some (d3, r) | D4 r => Some (d4, r) | D5 r => Some (d5, r)
  | D6 r => Some (d6, r) | D7 r => Some (d7, r) | D8 r => Some (d8, r)
  | D9 r => Some (d9, r)
  end.

(** Decimal text of a natural number, of an integer and of a real. *)
Definition N_text (n : N) : string :=
  NilEmpty.string_of_uint (N.to_uint n).

Definition Z_text (z : Z) : string :=
  match z with
  | Zneg p => "-" +:+ N_text (Npos p)
  | _ => N_text (Z.to_N z)
  end.

Definition real_text (neg : bool) (whole : N) (fh : digit) (ft : uint)
  : string :=
  (if neg then "-" else "") +:+ N_text whole +:+ "."
  +:+ NilEmpty.string_of_uint (dcons fh ft).

(** The longest run of decimal digits at the head of a text. *)
Fixpoint read_uint (s : string) : uint * string :=
  match s with
  | String "0" r => let '(u, t) := read_uint r in (D0 u, t)
  | String "1" r => let '(u, t) := read_uint r in (D1 u, t)
  | String "2" r => let '(u, t) := read_uint r in (D2 u, t)
  | String "3" r => let '(u, t) := read_uint r in (D3 u, t)
  | String "4" r => let '(u, t) := read_uint r in (D4 u, t)
  | String "5" r => let '(u, t) := read_uint r in (D5 u, t)
  | String "6" r => let '(u, t) := read_uint r in (D6 u, t)
  | String "7" r => let '(u, t) := read_uint r in (D7 u, t)
  | String "8" r => let '(u, t) := read_uint r in (D8 u, t)
  | String "9" r => let '(u, t) := read_uint r in (D9 u, t)
  | _ => (Nil, s)
  end.

(** [str.join]. *)
Fixpoint join (sep : string) (l : list string) : string :=
  match l with
  | [] => ""
  | [x] => x
  | x :: r => x +:+ sep +:+ join sep r
  end.

(** ** JSON text: Python's [json] module

    [dumps] is [json.dumps(v, separators=(',',':'))] and [loads] is
    [json.loads], over the values of the model.  Text is a string of
    characters with codes below 256.  Outside the model, and refused by
    [loads]: [true] and [false], an object below the top level of a
    document, exponent notation, [NaN] and [Infinity], and a [\u] escape
    of a code above 255. *)

Module Json.
Import Chars.

Definition hex_digit (n : N) : ascii :=
  if (n <? 10)%N then ascii_of_N (48 + n) else ascii_of_N (87 + n).

Definition hex_val (c : ascii) : option N :=
  let n := code c in
  if (48 <=? n)%N && (n <=? 57)%N then Some (n - 48)%N
  else if (97 <=? n)%N && (n <=? 102)%N then Some (n - 87)%N
  else if (65 <=? n)%N && (n <=? 70)%N then Some (n - 55)%N
  else None.

(** The escape of one character inside a JSON string. *)
Definition escape_char (c : ascii) : string :=
  if Ascii.eqb c dquote then String backslash (String dquote "")
  else if Ascii.eqb c backslash then String backslash (String backslash "")
  else if Ascii.eqb c newline then String backslash "n"
  else if Ascii.eqb c creturn then String backslash "r"
  else if Ascii.eqb c tab then String backslash "t"
  else if Ascii.eqb c backspace then String backslash "b"
  else if Ascii.eqb c formfeed then String backslash "f"
  else if (code c <? 32)%N then
    String backslash
      (String "u" (String "0" (String "0"
        (String (hex_digit (code c / 16)) (String (hex_digit (code c mod 16)) "")))))
  else String c "".

Fixpoint escape (s : string) : string :=
  match s with
  | "" => ""
  | String c r => escape_char c +:+ escape r
  end.

Definition quote (s : string) : string :=
  String dquote (escape s +:+ String dquote "").

Fixpoint dumps (v : Value) : string :=
  match v with
  | Null => "null"
  | Integer n => Z_text n
  | Real neg w fh ft => real_text neg w fh ft
  | Text s => quote s
  | Sequence l => "[" +:+ join "," (List.map dumps l) +:+ "]"
  end.

Fixpoint skip_ws (s : string) : string :=
  match s with
  | String c r => if is_space c then skip_ws r else s
  | "" => ""
  end.

(** The character that a one-letter escape stands for. *)
Definition unescape (e : ascii) : option ascii :=
  match e with
  | "n"%char => Some newline
  | "r"%char => Some creturn
  | "t"%char => Some tab
  | "b"%char => Some backspace
  | "f"%char => Some formfeed
  | "/"%char => Some "/"%char
  | _ =>
    if Ascii.eqb e dquote then Some dquote
    else if Ascii.eqb e backslash then Some backslash
    else None
  end.

Definition hex4 (h1 h2 h3 h4 : ascii) : option ascii :=
  match hex_val h1, hex_val h2, hex_val h3, hex_val h4 with
  | Some a, Some b, Some c, Some d =>
    let n := (((a * 16 + b) * 16 + c) * 16 + d)%N in
    if (n <? 256)%N then Some (ascii_of_N n) else None
  | _, _, _, _ => None
  end.

(** A string after its opening quote: the text up to the closing quote,
    and what follows it.  A raw control character is refused, as
    [json.loads] does. *)
Fixpoint parse_string_body (s : string) : option (string * string) :=
  match s with
  | "" => None
  | String c r =>
    if Ascii.eqb c dquote then Some ("", r)
    else if Ascii.eqb c backslash then
      match r with
      | String "u" (String h1 (String h2 (String h3 (String h4 r3)))) =>
        match hex4 h1 h2 h3 h4 with
        | Some ch =>
          match parse_string_body r3 with
          | Some (t, r') => Some (String ch t, r')
          | None => None
          end
        | None => None
        end
      | String e r2 =>
        match unescape e with
        | Some ch =>
          match parse_string_body r2 with
          | Some (t, r') => Some (String ch t, r')
          | None => None
          end
        | None => None
        end
      | "" => None
      end
    else if (code c <? 32)%N then None
    else
      match parse_string_body r with
      | Some (t, r') => Some (String c t, r')
      | None => None
      end
  end.

(** The integer part of a JSON number: [0], or digits that do not start
    with [0]. *)
Definition canonical (u : uint) : bool :=
  match u with
  | Nil => false
  | D0 Nil => true
  | D0 _ => false
  | _ => true
  end.

(** A number after its sign: integer part, optional fraction. *)
Definition parse_unsigned (neg : bool) (s1 : string)
  : option (Value * string) :=
  let '(ip, s2) := read_uint s1 in
  if canonical ip then
    match s2 with
    | String "." s3 =>
      let '(fr, s4) := read_uint s3 in
      match duncons fr with
      | Some (fh, ft) => Some (Real neg (N.of_uint ip) fh ft, s4)
      | None => None
      end
    | _ =>
      Some (Integer (if neg then - Z.of_N (N.of_uint ip)
                     else Z.of_N (N.of_uint ip)), s2)
    end
  else None.

(** A number: optional sign, integer part, optional fraction. *)
Definition parse_number (s : string) : option (Value * string) :=
  match s with
  | String "-" r => parse_unsigned true r
  | _ => parse_unsigned false s
  end.

(** The text does not go on with a digit, or with a digit or a point: a
    number written before it ends where it was meant to end. *)
Definition no_digit_ahead (rest : string) : Prop :=
  match rest with
  | "" => True
  | String c _ => is_digit c = false
  end.

Definition ends_number (rest : string) : Prop :=
  match rest with
  | "" => True
  | String c _ => is_digit c = false /\ c <> "."%char
  end.

(** The characters that the text of a scalar can start with. *)
Definition token_head (c : ascii) : bool :=
  is_digit c || Ascii.eqb c "-" || Ascii.eqb c dquote || Ascii.eqb c "n".

(** A value, after white space; [fuel] bounds the nesting and the number
    of elements. *)
Fixpoint parse_value (fuel : nat) (s : string) : option (Value * string) :=
  match fuel with
  | O => None
  | S fuel' =>
    match skip_ws s with
    | String "n" (String "u" (String "l" (String "l" r))) => Some (Null, r)
    | String "[" r =>
      match skip_ws r with
      | String "]" r' => Some (Sequence [], r')
      | _ =>
        match parse_items fuel' r with
        | Some (l, r') => Some (Sequence l, r')
        | None => None
        end
      end
    | String c r =>
      if Ascii.eqb c dquote then
        match parse_string_body r with
        | Some (t, r') => Some (Text t, r')
        | None => None
        end
      else parse_number (String c r)
    | "" => None
    end
  end
with parse_items (fuel : nat) (s : string) : option (list Value * string) :=
  match fuel with
  | O => None
  | S fuel' =>
    match parse_value fuel' s with
    | Some (v, r) =>
      match skip_ws r with
      | String "," r' =>
        match parse_items fuel' r' with
        | Some (l, r'') => Some (v :: l, r'')
        | None => None
        end
      | String "]" r' => Some ([v], r')
      | _ => None
      end
    | None => None
    end
  end.

(** The members of an object after its opening brace. *)
Fixpoint parse_members (fuel : nat) (s : string)
  : option (list (string * Value) * string) :=
  match fuel with
  | O => None
  | S fuel' =>
    match skip_ws s with
    | String c r =>
      if Ascii.eqb c dquote then
        match parse_string_body r with
        | Some (k, r1) =>
          match skip_ws r1 with
          | String ":" r2 =>
            match parse_value (String.length r2 + String.length r2 + 2) r2 with
            | Some (v, r3) =>
              match skip_ws r3 with
              | String "," r4 =>
                match parse_members fuel' r4 with
                | Some (l, r5) => Some ((k, v) :: l, r5)
                | None => None
                end
              | String "}" r4 => Some ([(k, v)], r4)
              | _ => None
              end
            | None => None
            end
          | _ => None
          end
        | None => None
        end
      else None
    | "" => None
    end
  end.

Definition fuel_for (s : string) : nat :=
  String.length s + String.length s + 2.

(** The text of an object with the given members, as [json.dumps] writes
    the items of a dictionary (compact separators). *)
Definition dumps_object (members : list (string * Value)) : string :=
  "{" +:+ join "," (List.map (fun kv => quote kv.1 +:+ ":" +:+ dumps kv.2)
                             members) +:+ "}".

(** [json.loads] of a document that is an array or a scalar. *)
Definition loads (s : string) : option Value :=
  match parse_value (fuel_for s) s with
  | Some (v, r) => match skip_ws r with "" => Some v | _ => None end
  | None => None
  end.

(** [json.loads] of a document that is an object: its members in the
    order of the text. *)
Definition loads_object (s : string) : option (list (string * Value)) :=
  match skip_ws s with
  | String "{" r =>
    match skip_ws r with
    | String "}" r' => match skip_ws r' with "" => Some [] | _ => None end
    | _ =>
      match parse_members (fuel_for r) r with
      | Some (l, r') => match skip_ws r' with "" => Some l | _ => None end
      | None => None
      end
    end
  | _ => None
  end.

(** A character that no JSON document starts with: it is not white
    space, nor the first character of a string, an object, an array, a
    number or one of the words [null], [true], [false], [NaN],
    [Infinity].  [json.loads] refuses a text that starts with it. *)
Definition starts_no_value (c : ascii) : bool :=
  negb (is_space c || is_digit c
        || existsb (Ascii.eqb c)
             [dquote; "{"; "["; "-"; "n"; "t"; "f"; "N"; "I"]%char).

(** A character that nothing starts with after the opening brace of an
    object: it is not white space, nor the quote of a key, nor the
    closing brace.  [json.loads] refuses an object that goes on with
    it. *)
Definition starts_no_member (c : ascii) : bool :=
  negb (is_space c || Ascii.eqb c dquote || Ascii.eqb c "}").

End Json.

(** ** Python built-ins used by the row functions *)

Module Py.
Import Chars.

(** [s.split(sep)] for a one-character separator; never empty. *)
Fixpoint split_on (sep : ascii) (s : string) : list string :=
  match s with
  | "" => [""]
  | String c r =>
    if Ascii.eqb c sep then "" :: split_on sep r
    else
      match split_on sep r with
      | h :: t => String c h :: t
      | [] => [String c ""]
      end
  end.

(** [s.replace('\t', '    ')]. *)
Fixpoint replace_tab (s : string) : string :=
  match s with
  | "" => ""
  | String c r =>
    if Ascii.eqb c tab then "    " +:+ replace_tab r
    else String c (replace_tab r)
  end.

(** The ASCII white space that [str.strip] removes. *)
Definition is_py_space (c : ascii) : bool :=
  is_space c || Ascii.eqb c "011" || Ascii.eqb c formfeed.

Fixpoint lstrip (s : string) : string :=
  match s with
  | String c r => if is_py_space c then lstrip r else s
  | "" => ""
  end.

Fixpoint rstrip (s : string) : string :=
  match s with
  | "" => ""
  | String c r =>
    match rstrip r with
    | "" => if is_py_space c then "" else String c ""
    | r' => String c r'
    end
  end.

(** [s.strip()]: the trimmed text. *)
Definition strip (s : string) : string := rstrip (lstrip s).

Fixpoint contains_char (c : ascii) (s : string) : bool :=
  match s with
  | "" => false
  | String x r => Ascii.eqb x c || contains_char c r
  end.

(** [sub in s]. *)
Fixpoint contains (sub s : string) : bool :=
  String.prefix sub s ||
  match s with
  | "" => false
  | String _ r => contains sub r
  end.

Definition hex2 (c : ascii) : string :=
  String (Json.hex_digit (code c / 16))
    (String (Json.hex_digit (code c mod 16)) "").

(** The body of [repr] of a unicode string delimited by [q]. *)
Fixpoint repr_body (q : ascii) (s : string) : string :=
  match s with
  | "" => ""
  | String c r =>
    (if Ascii.eqb c q || Ascii.eqb c backslash then String backslash (String c "")
     else if Ascii.eqb c tab then String backslash "t"
     else if Ascii.eqb c newline then String backslash "n"
     else if Ascii.eqb c creturn then String backslash "r"
     else if (code c <? 32)%N || (127 <=? code c)%N then
       String backslash (String "x" (hex2 c))
     else String c "") +:+ repr_body q r
  end.

Definition repr_text (s : string) : string :=
  let q := if contains_char squote s && negb (contains_char dquote s)
           then dquote else squote in
  String "u" (String q (repr_body q s +:+ String q "")).

(** [repr(x)]; an integer beyond a 64-bit machine word is a [long] and
    carries the suffix [L]. *)
Fixpoint py_repr (v : Value) : string :=
  match v with
  | Null => "None"
  | Integer n =>
    if ((n <? - 2 ^ 63) || (2 ^ 63 - 1 <? n))%Z then Z_text n +:+ "L"
    else Z_text n
  | Real neg w fh ft => real_text neg w fh ft
  | Text s => repr_text s
  | Sequence l => "[" +:+ join ", " (List.map py_repr l) +:+ "]"
  end.

(** [str(x)]; text is a sequence of characters in the model and is not
    re-encoded. *)
Definition py_str (v : Value) : string :=
  match v with
  | Integer n => Z_text n
  | Text s => s
  | _ => py_repr v
  end.

(** A number as a fraction with a positive denominator. *)
Definition fraction (v : Value) : option (Z * Z) :=
  match v with
  | Integer n => Some (n, 1%Z)
  | Real neg w fh ft =>
    let den := (10 ^ Z.of_nat (nb_digits (dcons fh ft)))%Z in
    let num := (Z.of_N w * den + Z.of_N (N.of_uint (dcons fh ft)))%Z in
    Some (if neg then (- num)%Z else num, den)
  | _ => None
  end.

(** The place of a type in a comparison of values of different types:
    [None] first, then numbers, then the other types by the name of the
    type, ['list'] before ['unicode']. *)
Definition rank (v : Value) : nat :=
  match v with
  | Null => 0
  | Integer _ | Real _ _ _ _ => 1
  | Sequence _ => 2
  | Text _ => 3
  end.

(** [cmp(a, b)] of Python 2. *)
Fixpoint py_cmp (a b : Value) : comparison :=
  match a, b with
  | Text s, Text t => String.compare s t
  | Sequence l1, Sequence l2 =>
    (fix lex (l1 l2 : list Value) : comparison :=
       match l1, l2 with
       | [], [] => Eq
       | [], _ :: _ => Lt
       | _ :: _, [] => Gt
       | x :: xs, y :: ys =>
         match py_cmp x y with
         | Eq => lex xs ys
         | c => c
         end
       end) l1 l2
  | _, _ =>
    match fraction a, fraction b with
    | Some (n1, e1), Some (n2, e2) => Z.compare (n1 * e2) (n2 * e1)
    | _, _ => Nat.compare (rank a) (rank b)
    end
  end.

Definition py_eqb (a b : Value) : bool :=
  match py_cmp a b with Eq => true | _ => false end.

Definition py_leb (a b : Value) : bool :=
  match py_cmp a b with Gt => false | _ => true end.

(** [cmp] of the pairs [(value, key)] that [operator.itemgetter(1,0)]
    makes of the items [(key, value)] of a dictionary. *)
Definition item_cmp (x y : string * Value) : comparison :=
  match py_cmp x.2 y.2 with
  | Eq => String.compare x.1 y.1
  | c => c
  end.

Definition item_leb (x y : string * Value) : bool :=
  match item_cmp x y with Gt => false | _ => true end.

(** What makes [cmp] an order, for [a] against any two values: values
    equal to [a] compare like [a], and "less than" goes through "less
    than" and through "equal". *)
Definition cmp_consistent (a b d : Value) : Prop :=
  (py_cmp a b = Eq -> py_cmp b d = py_cmp a d)
  /\ (py_cmp a b = Lt -> py_cmp b d = Lt -> py_cmp a d = Lt)
  /\ (py_cmp a b = Lt -> py_cmp b d = Eq -> py_cmp a d = Lt).

(** The order of the pairs in words: [x] comes before [y] by the value
    first and, for equal values, by the key. *)
Definition value_then_key (x y : string * Value) : Prop :=
  py_cmp x.2 y.2 = Lt
  \/ (py_cmp x.2 y.2 = Eq /\ String.compare x.1 y.1 <> Gt).

(** [sorted]: a stable sort, written as an insertion sort. *)
Fixpoint insert_sorted {A} (leb : A -> A -> bool) (x : A) (l : list A)
  : list A :=
  match l with
  | [] => [x]
  | y :: r => if leb x y then x :: y :: r else y :: insert_sorted leb x r
  end.

Definition sorted {A} (leb : A -> A -> bool) (l : list A) : list A :=
  foldr (insert_sorted leb) [] l.

(** The elements of [set(l)]: a list cannot be hashed, and an element
    equal to an earlier one is dropped.  The order in which a set is
    iterated is not defined; the callers sort the result. *)
Fixpoint set_add_all (seen : list Value) (l : list Value)
  : res (list Value) :=
  match l with
  | [] => Ok seen
  | x :: r =>
    if is_scalar x then
      set_add_all (if existsb (py_eqb x) seen then seen else seen ++ [x]) r
    else Raise TypeError
  end.

Definition py_set (l : list Value) : res (list Value) := set_add_all [] l.

(** [l[i]] on a list, with Python's negative indices. *)
Definition index {A} (l : list A) (i : Z) : option A :=
  let n := Z.of_nat (length l) in
  if (0 <=? i)%Z then l !! Z.to_nat i
  else if (- n <=? i)%Z then l !! Z.to_nat (n + i)
  else None.

End Py.

(** ** [lib/jlist.py] *)

Module Jlist.
Import Chars.

(** Modelled from the spec: [lib/jlist.py] is not among the sources.
    This is the natural text form of a scalar (4.1, 4.3): a text as it
    is, a number in decimal, [null]. *)
Definition natural_text (v : Value) : string :=
  match v with
  | Text s => s
  | _ => Json.dumps v
  end.

(** Modelled from the spec: [lib/jlist.py] is not among the sources.
    This is the spec's [encode] (4.1): a sequence of exactly one scalar
    is rendered as the raw text of that scalar; any other sequence is
    rendered as a JSON-style array, with text JSON-escaped and nested
    sequences rendered as arrays. *)
Definition encode (l : list Value) : string :=
  match l with
  | [e] => if is_scalar e then natural_text e else Json.dumps (Sequence l)
  | _ => Json.dumps (Sequence l)
  end.

(** Modelled from the spec: [jlist.toj], called by the row functions on
    a list ([encode] of it) and on one element of a decoded sequence
    (the single-element pack of a scalar). *)
Definition toj (x : Value) : string :=
  match x with
  | Sequence l => encode l
  | _ => natural_text x
  end.

(** Modelled from the spec: a text that looks like an array or an
    object, by its first character (4.1, Failure). *)
Definition starts_structured (t : string) : bool :=
  match t with
  | String "[" _ | String "{" _ => true
  | _ => false
  end.

(** Modelled from the spec: the classification of one textual argument
    (4.1).  A text that parses as a JSON-style array or scalar is that
    value; a text that starts with a bracket or a brace and does not
    parse is a decoding error; any other text is itself, as raw text.
    The spec names no class for a well-formed object: it is kept as raw
    text, the form in which the dictionary functions take it. *)
Definition decode_arg (t : string) : res Value :=
  match Json.loads t with
  | Some v => Ok v
  | None =>
    if starts_structured t then
      match Json.loads_object t with
      | Some _ => Ok (Text t)
      | None => Raise DecodeError
      end
    else Ok (Text t)
  end.

(** Modelled from the spec: [decodeElem] (4.1), an array argument kept
    as one sequence. *)
Fixpoint decodeElem (args : list string) : res (list Value) :=
  match args with
  | [] => Ok []
  | t :: r =>
    v <- decode_arg t ;;
    vs <- decodeElem r ;;
    Ok (v :: vs)
  end.

(** Modelled from the spec: [decodeFlat] (4.1), an array argument
    flattened by one level. *)
Fixpoint decodeFlat (args : list string) : res (list Value) :=
  match args with
  | [] => Ok []
  | t :: r =>
    v <- decode_arg t ;;
    vs <- decodeFlat r ;;
    Ok (match v with
        | Sequence l => l ++ vs
        | _ => v :: vs
        end)
  end.

(** Modelled from the spec: the decoders take textual arguments; this is
    the text of an SQLite argument. *)
Definition arg_text (a : sqlval) : string :=
  match a with
  | SqlInt n => Z_text n
  | SqlReal neg w fh ft => real_text neg w fh ft
  | SqlText s => s
  end.

(** Modelled from the spec: [jlist.fromj] is [decodeFlat] and
    [jlist.elemfromj] is [decodeElem], on the arguments of a call. *)
Definition fromj (args : list sqlval) : res (list Value) :=
  decodeFlat (List.map arg_text args).

Definition elemfromj (args : list sqlval) : res (list Value) :=
  decodeElem (List.map arg_text args).

(** Modelled from the spec: [flattenRecursive] (4.1). *)
Fixpoint flatten_value (v : Value) : list Value :=
  match v with
  | Sequence l => concat (List.map flatten_value l)
  | _ => [v]
  end.

(** Modelled from the spec: [jlist.flatten] is [flattenRecursive]. *)
Definition flatten (l : list Value) : list Value :=
  concat (List.map flatten_value l).

End Jlist.

(** ** Generators

    A generator body is modelled by what it does in order ([trace]) and
    by the way it ends: it returns, or it raises.  The events of a row
    function are the objects it yields. *)

Record gen (E A : Type) : Type := Gen { trace : list E; ending : res A }.
Arguments Gen {E A} trace ending.
Arguments trace {E A} g.
Arguments ending {E A} g.

Definition gen_ret {E A} (a : A) : gen E A := Gen [] (Ok a).

Definition gen_lift {E A} (r : res A) : gen E A := Gen [] r.

Definition emit {E} (e : E) : gen E unit := Gen [e] (Ok tt).

Definition gen_bind {E A B} (g : gen E A) (f : A -> gen E B) : gen E B :=
  match ending g with
  | Ok a => Gen (trace g ++ trace (f a)) (ending (f a))
  | Raise e => Gen (trace g) (Raise e)
  end.

Notation "x <~ g ;; k" := (gen_bind g (fun x => k))
  (at level 100, g at next level, right associativity).
Notation "g ;;; k" := (gen_bind g (fun _ => k))
  (at level 100, right associativity).

(** [for x in l: body x]. *)
Fixpoint for_each {E A} (l : list A) (body : A -> gen E unit) : gen E unit :=
  match l with
  | [] => gen_ret tt
  | x :: r => body x ;;; for_each r body
  end.

(** What [next()] gives the consumer. *)
Inductive signal (I : Type) : Type :=
  | Item (i : I)
  | EndOfStream
  | Failure (e : exn).
Arguments Item {I} i.
Arguments EndOfStream {I}.
Arguments Failure {I} e.

(** [next()] on a generator object, whose state is what is left of its
    body.  A generator that has raised is finished; [StopIteration]
    raised in the body ends the iteration. *)
Definition next {I} (g : gen I unit) : signal I * gen I unit :=
  match trace g with
  | i :: r => (Item i, Gen r (ending g))
  | [] =>
    match ending g with
    | Ok _ => (EndOfStream, Gen [] (Ok tt))
    | Raise StopIteration => (EndOfStream, Gen [] (Ok tt))
    | Raise e => (Failure e, Gen [] (Ok tt))
    end
  end.

(** The signal of the [n]-th further call of [next()]. *)
Fixpoint next_at {I} (n : nat) (g : gen I unit) : signal I :=
  match n with
  | O => (next g).1
  | S m => next_at m (next g).2
  end.

(** The framing of a stream: the body yields the schema and then the
    rows, and nothing else; so the first [next()] gives the schema, the
    following ones the rows in their order, and no [next()] after them
    gives an item. *)
Definition schema_then_rows {I} (g : gen I unit) (schema : I)
    (rows : list I) : Prop :=
  trace g = schema :: rows
  /\ next_at 0 g = Item schema
  /\ (forall i r, rows !! i = Some r -> next_at (S i) g = Item r)
  /\ (forall k i, next_at (S (length rows) + k) g <> Item i).

(** ** [functions/row/jpacks.py] *)

Module Jpacks.
Import Chars Py Jlist.

(** What a row generator yields: a tuple or a list of cells. *)
Inductive item : Type :=
  | PyTuple (cells : list Value)
  | PyList (cells : list Value).

Definition is_tuple (i : item) : bool :=
  match i with PyTuple _ => true | PyList _ => false end.

(** An SQLite argument as a Python object. *)
Definition val_of_arg (a : sqlval) : Value :=
  match a with
  | SqlInt n => Integer n
  | SqlReal neg w fh ft => Real neg w fh ft
  | SqlText s => Text s
  end.

Definition jpack (args : list sqlval) : res string :=
  l <- elemfromj args ;; Ok (toj (Sequence l)).



(** [str(x).replace('\t', '    ')]. *)
Definition tab_field (x : Value) : string := replace_tab (py_str x).

Definition j2t (args : list sqlval) : res string :=
  l <- fromj args ;;
  Ok (join (String tab "") (List.map tab_field l)).

(** [fj+=t.split('\t')] for each argument; a number has no [split]. *)
Fixpoint t2j_fields (args : list sqlval) : res (list string) :=
  match args with
  | [] => Ok []
  | SqlText t :: r => fj <- t2j_fields r ;; Ok (split_on tab t ++ fj)
  | _ :: _ => Raise AttributeError
  end.

Definition t2j (args : list sqlval) : res string :=
  fj <- t2j_fields args ;; Ok (toj (Sequence (List.map Text fj))).


Definition jset (args : list sqlval) : res string :=
  l <- fromj args ;;
  s <- py_set l ;;
  Ok (toj (Sequence (sorted py_leb s))).

Definition jsort (args : list sqlval) : res string :=
  l <- fromj args ;; Ok (toj (Sequence (sorted py_leb l))).

Definition jsplitv (args : list sqlval) : gen item unit :=
  emit (PyTuple [Text "C1"]) ;;;
  l <~ gen_lift (fromj args) ;;
  for_each l (fun j1 => emit (PyList [Text (toj j1)])).

(** ['C'+str(x) for x in xrange(1,n+1)]. *)
Definition column_names (n : nat) : list Value :=
  List.map (fun x => Text ("C" +:+ Z_text (Z.of_nat x))) (seq 1 n).

Definition jsplit (args : list sqlval) : gen item unit :=
  fj <~ gen_lift (l <- fromj args ;; Ok (List.map (fun x => Text (toj x)) l)) ;;
  (match fj with
   | [] => emit (PyTuple [Text "C1"])
   | _ :: _ => gen_ret tt
   end) ;;;
  emit (PyTuple (column_names (length fj))) ;;;
  emit (PyList fj).

Definition jflatten (args : list sqlval) : res string :=
  l <- elemfromj args ;; Ok (toj (Sequence (flatten l))).

(** ['(?:'+x+')']: only text can be added to text. *)
Fixpoint regexp_parts (l : list Value) : res (list string) :=
  match l with
  | [] => Ok []
  | Text s :: r => ps <- regexp_parts r ;; Ok (("(?:" +:+ s +:+ ")") :: ps)
  | _ :: _ => Raise TypeError
  end.

Definition jmergeregexp (args : list sqlval) : res string :=
  l <- fromj args ;;
  ps <- regexp_parts l ;;
  Ok (join "|" ps).

Fixpoint last_char (s : string) : option ascii :=
  match s with
  | "" => None
  | String c "" => Some c
  | String _ r => last_char r
  end.

(** [t[0]=='{' and t[-1]=='}']; indexing the empty text raises. *)
Definition object_shaped (t : string) : res bool :=
  match t with
  | "" => Raise IndexError
  | String c _ =>
    Ok (Ascii.eqb c "{" &&
        match last_char t with
        | Some z => Ascii.eqb z "}"
        | None => false
        end)
  end.

(** The key [k] is a key of the object that the text [t], which has the
    shape of an object as it stands, is the text of. *)
Definition contributes (t k : string) : Prop :=
  exists members,
    object_shaped t = Ok true /\ Json.loads_object t = Some members
    /\ k ∈ members.*1.

(** What is asked of a text argument: it is not empty, and if it has the
    shape of an object then it is the text of one. *)
Definition acceptable (t : string) : Prop :=
  t <> "" /\ (object_shaped t = Ok true -> is_Some (Json.loads_object t)).

(** The dictionary that [json.loads] builds from the members of an
    object: a later member replaces an earlier one of the same key. *)
Definition dict_of (l : list (string * Value)) : gmap string Value :=
  foldl (fun m kv => <[kv.1 := kv.2]> m) ∅ l.

Definition loads_dict (t : string) : res (gmap string Value) :=
  match Json.loads_object t with
  | Some l => Ok (dict_of l)
  | None => Raise ValueError
  end.

(** [d.iterkeys()] and [d.items()]: the order of a dictionary is not
    defined, and the order of [map_to_list] stands for it. *)
Definition iterkeys (d : gmap string Value) : list string :=
  (map_to_list d).*1.

Definition items (d : gmap string Value) : list (string * Value) :=
  map_to_list d.

(** The loop of the branch for several arguments. *)
Fixpoint jdictkeys_collect (args : list sqlval) : res (list string) :=
  match args with
  | [] => Ok []
  | SqlText t :: r =>
    b <- object_shaped t ;;
    ks <- (if b then d <- loads_dict t ;; Ok (iterkeys d) else Ok []) ;;
    rest <- jdictkeys_collect r ;;
    Ok (ks ++ rest)
  | _ :: _ => Raise TypeError
  end.

Definition jdictkeys (args : list sqlval) : res string :=
  keys <-
    match args with
    | [SqlText t] =>
      b <- object_shaped t ;;
      if b then d <- loads_dict t ;; Ok (iterkeys d) else Ok []
    | [_] => Ok []
    | _ =>
      ks <- jdictkeys_collect args ;;
      Ok (elements (list_to_set ks : gset string))
    end ;;
  Ok (toj (Sequence (List.map Text keys))).

(** [d[i]] guarded by [try]/[except]: [None] for a key that is absent. *)
Definition dict_get (d : gmap string Value) (i : sqlval) : Value :=
  match i with
  | SqlText k => default Null (d !! k)
  | _ => Null
  end.

Definition jdictvals (args : list sqlval) : res sqlval :=
  match args with
  | [] => Raise IndexError
  | SqlText t :: keys =>
    b <- object_shaped t ;;
    if b then
      d <- loads_dict t ;;
      let vals :=
        match keys with
        | [] => (sorted item_leb (items d)).*2
        | _ :: _ => List.map (dict_get d) keys
        end in
      Ok (SqlText (toj (Sequence vals)))
    else Ok (SqlText t)
  | a :: _ => Ok a
  end.

(** What [json.loads] gives [jdictsplit]: a dictionary, or a value that
    is not one. *)
Inductive doc : Type :=
  | DocObject (d : gmap string Value)
  | DocValue (v : Value).

Definition loads_doc (a : sqlval) : res doc :=
  match a with
  | SqlText t =>
    match Json.loads_object t with
    | Some l => Ok (DocObject (dict_of l))
    | None =>
      match Json.loads t with
      | Some v => Ok (DocValue v)
      | None => Raise ValueError
      end
    end
  | _ => Raise TypeError
  end.

Definition text_chars (s : string) : list Value :=
  List.map (fun c => Text (String c "")) (list_ascii_of_string s).

(** [d[i]] guarded by [try]/[except], on whatever [json.loads] gave. *)
Definition doc_get (d : doc) (i : sqlval) : Value :=
  match d, i with
  | DocObject m, _ => dict_get m i
  | DocValue (Sequence l), SqlInt n => default Null (index l n)
  | DocValue (Text s), SqlInt n => default Null (index (text_chars s) n)
  | DocValue _, _ => Null
  end.

Definition jdictsplit (args : list sqlval) : gen item unit :=
  match args with
  | [] => gen_lift (Raise IndexError)
  | a :: keys =>
    d <~ gen_lift (loads_doc a) ;;
    match keys with
    | [] =>
      match d with
      | DocObject m =>
        let its := sorted item_leb (items m) in
        emit (PyTuple (List.map Text its.*1)) ;;;
        emit (PyList its.*2)
      | DocValue _ => gen_lift (Raise AttributeError)
      end
    | _ :: _ =>
      emit (PyTuple (List.map val_of_arg keys)) ;;;
      emit (PyList (List.map (doc_get d) keys))
    end
  end.

End Jpacks.

(** ** [functions/vtable/igroup.py] *)

Module Igroup.
Import Py.

(** A cursor of the host: its description, which may raise, the rows it
    gives, and the way its iteration ends. *)
Record cursor : Type := Cursor {
  getdescription : res (list (string * string));
  rows : list (list Value);
  rows_end : res unit
}.

(** What the body of [VTiter] does: it executes a query on a new
    cursor, yields the description or a row, closes the cursor. *)
Inductive event : Type :=
  | Execute (query : string)
  | YieldDescription (d : list (string * string))
  | YieldRow (r : list Value)
  | Close.

(** What the consumer of the stream receives. *)
Inductive item : Type :=
  | Description (d : list (string * string))
  | DataRow (r : list Value).

Definition yielded (e : event) : option item :=
  match e with
  | YieldDescription d => Some (Description d)
  | YieldRow r => Some (DataRow r)
  | _ => None
  end.

(** The generator object seen by the consumer. *)
Definition stream (g : gen event unit) : gen item unit :=
  Gen (omap yielded (trace g)) (ending g).

Definition is_description (i : item) : bool :=
  match i with Description _ => true | DataRow _ => false end.

(** [BestIndex]: no constraint used, cost 0, no index, output claimed to
    be in the requested order, 1000 rows. *)
Definition BestIndex {C O : Type} (constraints : C) (orderbys : O)
  : option unit * Z * option unit * bool * Z :=
  (None, 0%Z, None, true, 1000%Z).

(** [name.rsplit('.')[-1]]. *)
Definition last_component (name : string) : string :=
  List.last (split_on "." name) "".

Section VTiter.

(** [vtbase.VT.full_parse] is not among the sources: it splits the
    arguments of the call into positional and named ones. *)
Variable full_parse : list string -> res (list string * gmap string string).

(** [__name__], the dotted name under which the module is loaded. *)
Variable module_name : string.

(** [envars['db'].cursor().execute(query)]. *)
Variable execute : string -> res cursor.

Definition VTiter (parsedArgs : list string) : gen event unit :=
  parsed <~ gen_lift (full_parse parsedArgs) ;;
  match parsed.2 !! "query" with
  | None =>
    gen_lift (Raise (OperatorError (last_component module_name)
                                   "No query argument "))
  | Some query =>
    emit (Execute query) ;;;
    c <~ gen_lift (execute query) ;;
    (match getdescription c with
     | Ok d => emit (YieldDescription d)
     | Raise StopIteration => emit Close ;;; gen_lift (Raise StopIteration)
     | Raise e => gen_lift (Raise e)
     end) ;;;
    for_each (rows c) (fun r => emit (YieldRow r)) ;;;
    gen_lift (rows_end c)
  end.

End VTiter.

End Igroup.

(** ** [mexec.py] *)

Module Mexec.
Import Chars.

(** What [parser.parse_args()] gives for the options [-f]/[--flow],
    [-d]/[--db] and [-w]/[--dbw]: [None] for an option that is absent. *)
Record options : Type := Options {
  flow : option string;
  db : option string;
  dbw : option string
}.

(** [apsw.SQLITE_OPEN_READWRITE] and [apsw.SQLITE_OPEN_CREATE]. *)
Definition SQLITE_OPEN_READWRITE : Z := 2.
Definition SQLITE_OPEN_CREATE : Z := 4.

(** The name of the database and the flags it is opened with, from the
    positional arguments and the options. *)
Definition choose_db (args : list string) (o : options) : string * Z :=
  let dbname := "" in
  let flags := Z.lor SQLITE_OPEN_READWRITE SQLITE_OPEN_CREATE in
  let '(dbname, flags) :=
    match args with
    | a :: _ => (a, SQLITE_OPEN_READWRITE)
    | [] => (dbname, flags)
    end in
  let '(dbname, flags) :=
    match db o with
    | Some n => (n, SQLITE_OPEN_READWRITE)
    | None => (dbname, flags)
    end in
  let dbname :=
    match dbw o with
    | Some n => n
    | None => dbname
    end in
  (dbname, flags).

(** What a run does that can be seen from outside. *)
Inductive event : Type :=
  | Connect (dbname : string) (flags : Z)
  | CloseFlow
  | Run (statement : string)
  | Stdout (text : string)
  | Stderr (text : string).

(** The ways [main] ends: by [sys.exit()], which gives the status 0, or
    by the [UnboundLocalError] of [f.close()] when [open] has failed and
    [f] has no value.  [OutOfFuel] is the model's: the loop was cut. *)
Inductive outcome : Type :=
  | Exit
  | UnboundLocal
  | OutOfFuel.

(** [f.readline()] on what is left of the file: the text up to and
    including the next newline, or all of it; and what is left then. *)
Fixpoint readline (s : string) : string * string :=
  match s with
  | "" => ("", "")
  | String c r =>
    if Ascii.eqb c newline then (String c "", r)
    else let '(l, rest) := readline r in (String c l, rest)
  end.

(** [s.rstrip('\r\n')]. *)
Fixpoint rstrip_crlf (s : string) : string :=
  match s with
  | "" => ""
  | String c r =>
    match rstrip_crlf r with
    | "" =>
      if Ascii.eqb c creturn || Ascii.eqb c newline then ""
      else String c ""
    | r' => String c r'
    end
  end.

(** [txt+'\n']. *)
Definition line (txt : string) : string := txt +:+ String newline "".

(** The statements that a run executes, in order. *)
Definition statements (ev : list event) : list string :=
  omap (fun e => match e with Run s => Some s | _ => None end) ev.

(** The texts that a run writes to [sys.stderr], in order. *)
Definition errors (ev : list event) : list string :=
  omap (fun e => match e with Stderr t => Some t | _ => None end) ev.

Section Main.

(** The state of the database behind the connection. *)
Variable DB : Type.

(** [madis.functions.Connection(dbname, flags)]. *)
Variable connect : string -> Z -> res DB.

(** [open(options.flow,'r')]: the text of the file, or [None] when
    [open] raises. *)
Variable open_flow : option string -> option string.

(** [apsw.complete]. *)
Variable complete : string -> bool.

(** [Connection.cursor().execute(statement)] iterated: the rows it
    gives, the way the iteration ends, and the database after it. *)
Variable execute : DB -> string -> gen (list Value) unit * DB.

(** [str(row)] and [str(e)]. *)
Variable str_row : list Value -> string.
Variable str_exn : exn -> string.

(** [exitwitherror(txt)]. *)
Definition exitwitherror (txt : string) : list event * outcome :=
  ([Stderr (line txt)], Exit).

(** The loop of [main] from the test of [apsw.complete] on: the
    statement read so far and what is left of the file.  One unit of
    fuel is one test of [apsw.complete]. *)
Fixpoint loop (fuel : nat) (d : DB) (statement rest : string)
  : list event * outcome :=
  match fuel with
  | O => ([], OutOfFuel)
  | S n =>
    if complete statement then
      let '(g, d') := execute d statement in
      let out :=
        Run statement
        :: List.map (fun row => Stdout (line (str_row row))) (trace g) in
      match ending g with
      | Ok _ => let '(ev, o) := loop n d' "" rest in (out ++ ev, o)
      | Raise e =>
        let '(ev, o) :=
          exitwitherror ("Error when executing query: "
                         +:+ String newline statement
                         +:+ String newline "The error was: "
                         +:+ str_exn e) in
        (out ++ ev, o)
      end
    else
      let '(l, rest') := readline rest in
      let statement' := statement +:+ l in
      if String.eqb l "" then
        ((if String.eqb (rstrip_crlf statement') "" then []
          else [Stderr ("Incomplete query:" +:+ statement')])
         ++ [CloseFlow], Exit)
      else loop n d statement' rest'
  end.

(** Tests of [apsw.complete] enough for a file of this text, when the
    empty statement is not complete. *)
Definition fuel_for (content : string) : nat :=
  2 * String.length content + 2.

Definition main (args : list string) (o : options) : list event * outcome :=
  let '(dbname, flags) := choose_db args o in
  match connect dbname flags with
  | Raise e =>
    let '(ev, out) :=
      exitwitherror ("Error in opening DB: " +:+ dbname
                     +:+ String newline "The error was: " +:+ str_exn e) in
    (Connect dbname flags :: ev, out)
  | Ok d =>
    match open_flow (flow o) with
    | None => ([Connect dbname flags], UnboundLocal)
    | Some content =>
      let '(statement, rest) := readline content in
      if String.eqb statement "" then
        ([Connect dbname flags; CloseFlow], Exit)
      else
        let '(ev, out) := loop (fuel_for content) d statement rest in
        (Connect dbname flags :: ev, out)
    end
  end.

End Main.

End Mexec.

(** * Properties *)

(** ** The result type *)

Lemma res_bind_Ok {A B} (r : res A) (f : A -> res B) (b : B) :
  res_bind r f = Ok b -> exists a, r = Ok a /\ f a = Ok b.
Proof. destruct r as [a|e]; simpl; [eauto | discriminate]. Qed.

Lemma res_bind_Raise {A B} (r : res A) (f : A -> res B) (e : exn) :
  r = Raise e -> res_bind r f = Raise e.
Proof. intros ->. reflexivity. Qed.

(** ** [jmergeregexp] *)

Module RegexpFacts.
Import Jpacks.

Lemma regexp_parts_text (vs : list string) :
  regexp_parts (List.map Text vs)
  = Ok (List.map (fun v => "(?:" +:+ v +:+ ")") vs).
Proof.
  induction vs as [|v vs IH]; simpl; [reflexivity|].
  rewrite IH. reflexivity.
Qed.

Lemma regexp_parts_only_TypeError (l : list Value) (e : exn) :
  regexp_parts l = Raise e -> e = TypeError.
Proof.
  induction l as [|x l IH]; simpl; [discriminate|].
  destruct x; try (intros [= <-]; reflexivity).
  destruct (regexp_parts l) as [ps|e'] eqn:E; simpl; [discriminate|].
  intros [= <-]. apply IH. reflexivity.
Qed.

Lemma regexp_parts_non_text (l : list Value) :
  Exists (fun x => is_text x = false) l -> regexp_parts l = Raise TypeError.
Proof.
  induction 1 as [x l Hx | x l _ IH].
  - destruct x; simpl in *; try reflexivity. discriminate.
  - destruct x; simpl; try reflexivity. rewrite IH. reflexivity.
Qed.

End RegexpFacts.

(** C9.  When the flat decoding of the arguments is the texts
    [v1 .. vn], [jmergeregexp] returns ["(?:v1)|(?:v2)|...|(?:vn)"];
    when the flat decoding holds an element that is not text, the call
    raises [TypeError] and returns nothing. *)
Theorem C9_jmergeregexp (args : list sqlval) (l : list Value) :
  Jlist.fromj args = Ok l ->
  (forall vs, l = List.map Text vs ->
     Jpacks.jmergeregexp args
     = Ok (join "|" (List.map (fun v => "(?:" +:+ v +:+ ")") vs)))
  /\ (Exists (fun x => is_text x = false) l ->
      Jpacks.jmergeregexp args = Raise TypeError).
Proof.
  intros Hl. unfold Jpacks.jmergeregexp. rewrite Hl. simpl. split.
  - intros vs ->. rewrite RegexpFacts.regexp_parts_text. reflexivity.
  - intros Hex. rewrite (RegexpFacts.regexp_parts_non_text _ Hex). reflexivity.
Qed.

Lemma C9_jmergeregexp_witness :
  Jpacks.jmergeregexp
    [SqlText (Json.dumps (Sequence [Text "abc"; Text "def"]))]
  = Ok "(?:abc)|(?:def)"
  /\ Jpacks.jmergeregexp
       [SqlText (Json.dumps (Sequence [Text "abc"; Integer 1]))]
     = Raise TypeError.
Proof.
  split.
  - apply (proj1 (C9_jmergeregexp
                    [SqlText (Json.dumps (Sequence [Text "abc"; Text "def"]))]
                    [Text "abc"; Text "def"] eq_refl)
             ["abc"; "def"] eq_refl).
  - apply (proj2 (C9_jmergeregexp
                    [SqlText (Json.dumps (Sequence [Text "abc"; Integer 1]))]
                    [Text "abc"; Integer 1] eq_refl)).
    apply Exists_cons_tl, Exists_cons_hd. reflexivity.
Defined.

(** ** [jset] *)

Module SetFacts.
Import Py.

Lemma set_add_all_unhashable (l seen : list Value) :
  Exists (fun x => is_scalar x = false) l ->
  set_add_all seen l = Raise TypeError.
Proof.
  intros H. revert seen.
  induction H as [x l Hx | x l _ IH]; intros seen; simpl.
  - rewrite Hx. reflexivity.
  - destruct (is_scalar x); [apply IH | reflexivity].
Qed.

Lemma set_add_all_scalars (l seen : list Value) :
  Forall (fun x => is_scalar x = true) l ->
  exists s, set_add_all seen l = Ok s.
Proof.
  intros H. revert seen.
  induction H as [| x l Hx _ IH]; intros seen; simpl.
  - eauto.
  - rewrite Hx. apply IH.
Qed.

Lemma scalar_or_not (l : list Value) :
  Forall (fun x => is_scalar x = true) l
  \/ Exists (fun x => is_scalar x = false) l.
Proof.
  induction l as [|x l [IH|IH]].
  - left. constructor.
  - destruct (is_scalar x) eqn:E.
    + left. constructor; assumption.
    + right. apply Exists_cons_hd. assumption.
  - right. apply Exists_cons_tl. assumption.
Qed.

End SetFacts.

(** C10.  When the flat decoding of the arguments holds a nested
    sequence, [jset] raises ([TypeError]: a list cannot be hashed);
    [jset] returns a pack exactly when every decoded element is a
    scalar. *)
Theorem C10_jset_nested (args : list sqlval) (l : list Value) :
  Jlist.fromj args = Ok l ->
  (Exists (fun x => is_scalar x = false) l ->
   Jpacks.jset args = Raise TypeError)
  /\ ((exists p, Jpacks.jset args = Ok p)
      <-> Forall (fun x => is_scalar x = true) l).
Proof.
  intros Hl. unfold Jpacks.jset. rewrite Hl. cbn [res_bind].
  unfold Py.py_set.
  destruct (SetFacts.scalar_or_not l) as [Hall|Hex].
  - destruct (SetFacts.set_add_all_scalars l [] Hall) as [s ->].
    cbn [res_bind]. split; [|split; eauto].
    intros Hex. exfalso.
    apply Exists_exists in Hex as (x & Hin & Hx).
    rewrite Forall_forall in Hall. rewrite (Hall x Hin) in Hx. discriminate.
  - rewrite (SetFacts.set_add_all_unhashable l [] Hex). cbn [res_bind].
    split; [reflexivity|]. split.
    + intros [p Hp]. discriminate.
    + intros Hall. exfalso.
      apply Exists_exists in Hex as (x & Hin & Hx).
      rewrite Forall_forall in Hall. rewrite (Hall x Hin) in Hx. discriminate.
Qed.

Lemma C10_jset_nested_witness :
  Jpacks.jset [SqlText "[1,[2]]"] = Raise TypeError.
Proof.
  apply (proj1 (C10_jset_nested [SqlText "[1,[2]]"]
                  [Integer 1; Sequence [Integer 2]] eq_refl)).
  apply Exists_cons_tl, Exists_cons_hd. reflexivity.
Defined.

(** ** Generators and the streams of the row producers *)

Module GenFacts.

Lemma trace_emit_bind {E B} (e : E) (k : unit -> gen E B) :
  trace (gen_bind (emit e) k) = e :: trace (k tt).
Proof. reflexivity. Qed.

Lemma trace_lift_bind {E A B} (r : res A) (k : A -> gen E B) :
  trace (gen_bind (gen_lift r) k)
  = match r with Ok a => trace (k a) | Raise _ => [] end.
Proof. destruct r; reflexivity. Qed.

Lemma next_empty {I} (g : gen I unit) :
  trace g = [] -> (forall i, (next g).1 <> Item i) /\ (next g).2 = Gen [] (Ok tt).
Proof.
  intros H. unfold next. rewrite H.
  destruct (ending g) as [u|e]; [|destruct e]; simpl; split;
    try reflexivity; intros i; discriminate.
Qed.

Lemma next_item {I} (g : gen I unit) (i : I) :
  (next g).1 = Item i -> exists r, trace g = i :: r.
Proof.
  unfold next. destruct (trace g) as [|j r].
  - destruct (ending g) as [u|e]; [|destruct e]; simpl; discriminate.
  - simpl. intros [= ->]. eauto.
Qed.

(** Once the trace is used up, no call of [next()] gives an item. *)
Lemma exhausted_stays {I} (k : nat) (g : gen I unit) :
  trace g = [] -> forall i, next_at k g <> Item i.
Proof.
  revert g. induction k as [|k IH]; intros g H i; simpl.
  - apply (proj1 (next_empty g H)).
  - rewrite (proj2 (next_empty g H)). apply IH. reflexivity.
Qed.

Lemma no_item_after_end {I} (n : nat) (g : gen I unit) :
  (forall i, next_at n g <> Item i) ->
  forall k i, next_at (n + k) g <> Item i.
Proof.
  revert g. induction n as [|n IH]; intros g H k i.
  - simpl in H. apply exhausted_stays.
    unfold next in H. destruct (trace g) as [|j r]; [reflexivity|].
    exfalso. apply (H j). reflexivity.
  - simpl. apply IH. exact H.
Qed.

End GenFacts.

(** C7.  When the named arguments of [igroup] hold no key [query], the
    body of [VTiter] raises [OperatorError] carrying the name of the
    operator and a message that names [query]; it does this before it
    executes anything on a cursor and before it yields anything, so
    the first [next()] of the consumer fails with that error. *)
Theorem C7_igroup_missing_query
    (full_parse : list string -> res (list string * gmap string string))
    (module_name : string) (execute : string -> res Igroup.cursor)
    (parsedArgs largs : list string) (dictargs : gmap string string) :
  full_parse parsedArgs = Ok (largs, dictargs) ->
  dictargs !! "query" = None ->
  Igroup.last_component module_name = "igroup" ->
  Igroup.VTiter full_parse module_name execute parsedArgs
  = Gen [] (Raise (OperatorError "igroup" "No query argument "))
  /\ next (Igroup.stream
             (Igroup.VTiter full_parse module_name execute parsedArgs))
     = (Failure (OperatorError "igroup" "No query argument "), Gen [] (Ok tt))
  /\ Py.contains "query" "No query argument " = true.
Proof.
  intros Hp Hq Hn.
  assert (H : Igroup.VTiter full_parse module_name execute parsedArgs
              = Gen [] (Raise (OperatorError "igroup" "No query argument "))).
  { unfold Igroup.VTiter, gen_bind, gen_lift. rewrite Hp. simpl.
    rewrite Hq, Hn. reflexivity. }
  rewrite H. repeat split.
Qed.

Lemma C7_igroup_missing_query_witness :
  Igroup.VTiter (fun _ => Ok (["select 1"], {["other" := "x"]}))
    "functions.vtable.igroup" (fun _ => Raise ValueError) ["select 1"]
  = Gen [] (Raise (OperatorError "igroup" "No query argument ")).
Proof.
  refine (proj1 (C7_igroup_missing_query
                   (fun _ => Ok (["select 1"], {["other" := "x"]}))
                   "functions.vtable.igroup" (fun _ => Raise ValueError)
                   ["select 1"] ["select 1"] {["other" := "x"]}
                   eq_refl _ _)).
  - vm_compute. reflexivity.
  - vm_compute. reflexivity.
Defined.

(** ** [jsplit] *)

Lemma jsplit_nonempty (args : list sqlval) (x : Value) (l : list Value) :
  Jlist.fromj args = Ok (x :: l) ->
  Jpacks.jsplit args
  = Gen [Jpacks.PyTuple (Jpacks.column_names (length (x :: l)));
         Jpacks.PyList (List.map (fun y => Text (Jlist.toj y)) (x :: l))]
        (Ok tt).
Proof.
  intros H. unfold Jpacks.jsplit. rewrite H.
  cbn [res_bind gen_lift gen_bind ending trace List.map length app emit
       gen_ret].
  rewrite List.length_map. reflexivity.
Qed.

Lemma jsplit_empty (args : list sqlval) :
  Jlist.fromj args = Ok [] ->
  Jpacks.jsplit args
  = Gen [Jpacks.PyTuple [Text "C1"]; Jpacks.PyTuple []; Jpacks.PyList []]
        (Ok tt).
Proof. intros H. unfold Jpacks.jsplit. rewrite H. reflexivity. Qed.

(** C4.  On the pack of the empty sequence [jsplit] yields the tuple
    [('C1',)], then the empty tuple, then the empty list, and returns:
    the branch for the empty sequence falls through to the two [yield]s
    of the general case. *)
Theorem C4_jsplit_empty_pack :
  Jlist.fromj [SqlText "[]"] = Ok []
  /\ Jpacks.jsplit [SqlText "[]"]
     = Gen [Jpacks.PyTuple [Text "C1"]; Jpacks.PyTuple []; Jpacks.PyList []]
           (Ok tt).
Proof. split; reflexivity. Qed.

(** ** Induction on values *)

Lemma Value_ind (P : Value -> Prop)
    (HNull : P Null)
    (HInteger : forall n, P (Integer n))
    (HReal : forall neg w fh ft, P (Real neg w fh ft))
    (HText : forall s, P (Text s))
    (HSequence : forall l, Forall P l -> P (Sequence l)) :
  forall v, P v.
Proof.
  fix IH 1. intros [ | n | neg w fh ft | s | l].
  - exact HNull.
  - apply HInteger.
  - apply HReal.
  - apply HText.
  - apply HSequence. induction l as [|x l IHl]; constructor.
    + apply IH.
    + exact IHl.
Qed.

(** ** Python's comparison and [sorted] *)

Module OrderFacts.
Import Py.

Lemma fraction_rank (v : Value) :
  (exists q, fraction v = Some q /\ rank v = 1)
  \/ (fraction v = None /\ rank v <> 1).
Proof. destruct v; simpl; eauto. Qed.

(** [cmp(b, a)] is the opposite of [cmp(a, b)]. *)
Lemma py_cmp_antisym (a b : Value) : py_cmp b a = CompOpp (py_cmp a b).
Proof.
  revert b. induction a as [ | n | neg w fh ft | s | l IH] using Value_ind;
    intros [ | n' | neg' w' fh' ft' | s' | l']; simpl;
    try reflexivity;
    try (rewrite Z.compare_antisym; reflexivity);
    try (match goal with
         | |- context [let (n, e) := ?p in _] => destruct p
         end; rewrite Z.compare_antisym; reflexivity).
  - apply String.compare_antisym.
  - revert l'. induction IH as [|x l Hx _ IHl]; intros [|y l'];
      try reflexivity.
    rewrite (Hx y). destruct (py_cmp x y); simpl; try reflexivity.
    apply IHl.
Qed.

Lemma item_cmp_antisym (x y : string * Value) :
  item_cmp y x = CompOpp (item_cmp x y).
Proof.
  unfold item_cmp. rewrite (py_cmp_antisym x.2 y.2).
  destruct (py_cmp x.2 y.2); simpl; try reflexivity.
  apply String.compare_antisym.
Qed.

Lemma item_leb_total (x y : string * Value) :
  item_leb x y = false -> item_leb y x = true.
Proof.
  unfold item_leb. rewrite (item_cmp_antisym x y).
  destruct (item_cmp x y); simpl; congruence.
Qed.

Lemma py_leb_total (x y : Value) : py_leb x y = false -> py_leb y x = true.
Proof.
  unfold py_leb. rewrite (py_cmp_antisym x y).
  destruct (py_cmp x y); simpl; congruence.
Qed.

Section Sorted.
Context {A : Type} (leb : A -> A -> bool).
Hypothesis leb_total : forall x y, leb x y = false -> leb y x = true.

Lemma insert_sorted_perm (x : A) (l : list A) :
  insert_sorted leb x l ≡ₚ x :: l.
Proof.
  induction l as [|y l IH]; simpl; [reflexivity|].
  destruct (leb x y); [reflexivity|].
  rewrite IH. apply Permutation_swap.
Qed.

Lemma sorted_perm (l : list A) : sorted leb l ≡ₚ l.
Proof.
  induction l as [|x l IH]; simpl; [reflexivity|].
  rewrite insert_sorted_perm, IH. reflexivity.
Qed.

Lemma insert_sorted_HdRel (x y : A) (l : list A) :
  leb y x = true -> HdRel (fun a b => leb a b = true) y l ->
  HdRel (fun a b => leb a b = true) y (insert_sorted leb x l).
Proof.
  intros Hyx H. destruct l as [|z l]; simpl.
  - constructor. exact Hyx.
  - destruct (leb x z); constructor; [exact Hyx|].
    inversion H. assumption.
Qed.

Lemma insert_sorted_Sorted (x : A) (l : list A) :
  Sorted (fun a b => leb a b = true) l ->
  Sorted (fun a b => leb a b = true) (insert_sorted leb x l).
Proof.
  induction 1 as [|y l Hl IH Hhd]; simpl.
  - repeat constructor.
  - destruct (leb x y) eqn:E.
    + constructor; [constructor; assumption|]. constructor. exact E.
    + constructor; [exact IH|].
      apply insert_sorted_HdRel; [|exact Hhd]. apply leb_total, E.
Qed.

Lemma sorted_Sorted (l : list A) :
  Sorted (fun a b => leb a b = true) (sorted leb l).
Proof.
  induction l as [|x l IH]; simpl; [constructor|].
  apply insert_sorted_Sorted, IH.
Qed.

End Sorted.

End OrderFacts.

(** ** [cmp] is a total preorder *)

Module PreorderFacts.
Import Py.

Lemma ascii_compare_trans (a b c : ascii) :
  Ascii.compare a b = Lt -> Ascii.compare b c = Lt -> Ascii.compare a c = Lt.
Proof.
  unfold Ascii.compare. rewrite !N.compare_lt_iff. lia.
Qed.

Lemma string_compare_trans (s t u : string) :
  String.compare s t = Lt -> String.compare t u = Lt ->
  String.compare s u = Lt.
Proof.
  revert t u. induction s as [|a s IH]; intros [|b t] [|c u]; simpl;
    try congruence.
  destruct (Ascii.compare a b) eqn:Eab; try discriminate;
    destruct (Ascii.compare b c) eqn:Ebc; try discriminate; intros H1 H2.
  - apply Ascii.compare_eq_iff in Eab, Ebc. subst.
    unfold Ascii.compare. rewrite N.compare_refl. eapply IH; eassumption.
  - apply Ascii.compare_eq_iff in Eab. subst. rewrite Ebc. reflexivity.
  - apply Ascii.compare_eq_iff in Ebc. subst. rewrite Eab. reflexivity.
  - rewrite (ascii_compare_trans a b c Eab Ebc). reflexivity.
Qed.

Lemma fraction_pos (v : Value) (n e : Z) :
  fraction v = Some (n, e) -> (0 < e)%Z.
Proof.
  destruct v; simpl; try discriminate.
  - intros [= _ <-]. lia.
  - intros [= _ <-]. apply Z.pow_pos_nonneg; lia.
Qed.

Lemma py_cmp_num (a b : Value) (n1 e1 n2 e2 : Z) :
  fraction a = Some (n1, e1) -> fraction b = Some (n2, e2) ->
  py_cmp a b = (n1 * e2 ?= n2 * e1)%Z.
Proof.
  destruct a, b; try discriminate; intros Ha Hb;
    unfold py_cmp; rewrite Ha, Hb; reflexivity.
Qed.

Lemma py_cmp_rank (a b : Value) :
  rank a <> rank b -> py_cmp a b = Nat.compare (rank a) (rank b).
Proof. destruct a, b; simpl; try reflexivity; congruence. Qed.

Lemma py_cmp_Lt_rank (a b : Value) : py_cmp a b = Lt -> rank a <= rank b.
Proof.
  intros H. destruct (decide (rank a = rank b)) as [E|E]; [lia|].
  rewrite (py_cmp_rank a b E) in H. apply Nat.compare_lt_iff in H. lia.
Qed.

Lemma py_cmp_Eq_rank (a b : Value) : py_cmp a b = Eq -> rank a = rank b.
Proof.
  intros H. destruct (decide (rank a = rank b)) as [E|E]; [exact E|].
  rewrite (py_cmp_rank a b E) in H. apply Nat.compare_eq_iff in H. lia.
Qed.

Lemma py_cmp_rank_lt (a d : Value) : rank a < rank d -> py_cmp a d = Lt.
Proof.
  intros H. rewrite py_cmp_rank by lia. apply Nat.compare_lt_iff, H.
Qed.

(** Values whose ranks are not all the same. *)
Lemma consistent_ranks (a b d : Value) :
  ~ (rank a = rank b /\ rank b = rank d) -> cmp_consistent a b d.
Proof.
  intros Hr. repeat split.
  - intros H. pose proof (py_cmp_Eq_rank _ _ H) as E.
    rewrite !py_cmp_rank by lia. rewrite E. reflexivity.
  - intros H1 H2. apply py_cmp_Lt_rank in H1, H2.
    apply py_cmp_rank_lt. lia.
  - intros H1 H2. apply py_cmp_Lt_rank in H1. apply py_cmp_Eq_rank in H2.
    apply py_cmp_rank_lt. lia.
Qed.

Lemma consistent_num (a b d : Value) (q1 q2 q3 : Z * Z) :
  fraction a = Some q1 -> fraction b = Some q2 -> fraction d = Some q3 ->
  cmp_consistent a b d.
Proof.
  destruct q1 as [n1 e1], q2 as [n2 e2], q3 as [n3 e3]. intros Ha Hb Hd.
  pose proof (fraction_pos _ _ _ Ha). pose proof (fraction_pos _ _ _ Hb).
  pose proof (fraction_pos _ _ _ Hd).
  unfold cmp_consistent.
  rewrite (py_cmp_num a b _ _ _ _ Ha Hb), (py_cmp_num b d _ _ _ _ Hb Hd),
    (py_cmp_num a d _ _ _ _ Ha Hd).
  repeat split.
  - intros E. apply Z.compare_eq_iff in E.
    destruct (Z.compare_spec (n2 * e3) (n3 * e2));
      destruct (Z.compare_spec (n1 * e3) (n3 * e1));
      try reflexivity; exfalso; nia.
  - rewrite !Z.compare_lt_iff. intros. nia.
  - rewrite !Z.compare_lt_iff. intros H2 E. apply Z.compare_eq_iff in E. nia.
Qed.

Lemma consistent_text (s t u : string) :
  cmp_consistent (Text s) (Text t) (Text u).
Proof.
  unfold cmp_consistent. simpl. repeat split.
  - intros E. apply String.compare_eq_iff in E. subst. reflexivity.
  - apply string_compare_trans.
  - intros H E. apply String.compare_eq_iff in E. subst. exact H.
Qed.

Lemma py_cmp_sequence (l1 l2 : list Value) :
  py_cmp (Sequence l1) (Sequence l2)
  = match l1, l2 with
    | [], [] => Eq
    | [], _ :: _ => Lt
    | _ :: _, [] => Gt
    | x :: xs, y :: ys =>
      match py_cmp x y with
      | Eq => py_cmp (Sequence xs) (Sequence ys)
      | c => c
      end
    end.
Proof. destruct l1, l2; reflexivity. Qed.

Lemma consistent_sequence (l1 : list Value) :
  Forall (fun x => forall b d, cmp_consistent x b d) l1 ->
  forall l2 l3, cmp_consistent (Sequence l1) (Sequence l2) (Sequence l3).
Proof.
  induction 1 as [|x xs Hx _ IH]; intros l2 l3.
  - destruct l2, l3; repeat split; simpl; congruence.
  - destruct l2 as [|y ys]; [repeat split; simpl; congruence|].
    destruct l3 as [|z zs].
    + repeat split; rewrite !py_cmp_sequence;
        destruct (py_cmp x y); congruence.
    + destruct (Hx y z) as (HA & HB & HC).
      destruct (IH ys zs) as (IA & IB & IC).
      unfold cmp_consistent.
      rewrite (py_cmp_sequence (x :: xs) (y :: ys)),
        (py_cmp_sequence (y :: ys) (z :: zs)),
        (py_cmp_sequence (x :: xs) (z :: zs)).
      destruct (py_cmp x y) eqn:Exy.
      * rewrite (HA eq_refl). destruct (py_cmp x z); auto.
        repeat split; congruence.
      * destruct (py_cmp y z) eqn:Eyz.
        -- rewrite (HC eq_refl eq_refl). repeat split; congruence.
        -- rewrite (HB eq_refl eq_refl). repeat split; congruence.
        -- repeat split; congruence.
      * repeat split; congruence.
Qed.

(** [cmp] is consistent on all values. *)
Lemma py_cmp_consistent (a : Value) : forall b d, cmp_consistent a b d.
Proof.
  induction a as [ | n | neg w fh ft | s | l IH] using Value_ind;
    intros b d.
  all: match goal with
       | |- cmp_consistent ?a ?b ?d =>
         destruct (decide (rank a = rank b /\ rank b = rank d))
           as [[R1 R2]|R]; [|apply consistent_ranks, R]
       end.
  all: destruct b; try discriminate R1; destruct d; try discriminate R2.
  all: try (eapply consistent_num; reflexivity).
  - repeat split; simpl; congruence.
  - apply consistent_text.
  - apply consistent_sequence, IH.
Qed.

Lemma py_leb_trans (a b d : Value) :
  py_leb a b = true -> py_leb b d = true -> py_leb a d = true.
Proof.
  unfold py_leb. destruct (py_cmp_consistent a b d) as (HA & HB & HC).
  destruct (py_cmp a b); [| |discriminate].
  - rewrite <- (HA eq_refl). auto.
  - destruct (py_cmp b d); [| |discriminate].
    + rewrite (HC eq_refl eq_refl). reflexivity.
    + rewrite (HB eq_refl eq_refl). reflexivity.
Qed.

Lemma string_le_trans (s t u : string) :
  String.compare s t <> Gt -> String.compare t u <> Gt ->
  String.compare s u <> Gt.
Proof.
  destruct (String.compare s t) eqn:E1; [| |congruence];
    destruct (String.compare t u) eqn:E2; try congruence; intros _ _.
  - apply String.compare_eq_iff in E1. subst. congruence.
  - apply String.compare_eq_iff in E1. subst. congruence.
  - apply String.compare_eq_iff in E2. subst. congruence.
  - rewrite (string_compare_trans s t u E1 E2). congruence.
Qed.

(** The order of the pairs (value, key) is transitive. *)
Lemma value_then_key_trans (x y z : string * Value) :
  value_then_key x y -> value_then_key y z -> value_then_key x z.
Proof.
  unfold value_then_key.
  destruct (py_cmp_consistent x.2 y.2 z.2) as (HA & HB & HC).
  intros [H1|[H1 K1]] [H2|[H2 K2]].
  - left. auto.
  - left. auto.
  - left. rewrite <- (HA H1). exact H2.
  - right. split.
    + rewrite <- (HA H1). exact H2.
    + eapply string_le_trans; eassumption.
Qed.

End PreorderFacts.

(** ** Dictionaries *)

Module DictFacts.
Import Jpacks.

Lemma map_is_fmap {A B} (f : A -> B) (l : list A) : List.map f l = f <$> l.
Proof. reflexivity. Qed.

Lemma foldl_insert_lookup (l : list (string * Value))
    (m : gmap string Value) (k : string) (v : Value) :
  NoDup l.*1 ->
  foldl (fun m kv => <[kv.1 := kv.2]> m) m l !! k = Some v
  <-> ((k, v) ∈ l) \/ ((k ∉ l.*1) /\ m !! k = Some v).
Proof.
  revert m. induction l as [|[k' v'] l IH]; intros m Hnd; simpl.
  - split; [intros H; right; split; [apply not_elem_of_nil | exact H]|].
    intros [H|[_ H]]; [|exact H]. by apply elem_of_nil in H.
  - apply NoDup_cons in Hnd as [Hk' Hnd]. rewrite (IH _ Hnd). split.
    + intros [H|[Hn H]].
      * left. by apply elem_of_cons; right.
      * destruct (decide (k' = k)) as [->|Hne].
        -- rewrite lookup_insert_eq in H. injection H as ->.
           left. apply elem_of_cons. by left.
        -- rewrite lookup_insert_ne in H by done. right. split; [|done].
           rewrite not_elem_of_cons. split; [congruence | done].
    + intros [H|[Hn H]].
      * apply elem_of_cons in H as [[= -> ->]|H]; [|by left].
        right. split; [done|]. apply lookup_insert_eq.
      * apply not_elem_of_cons in Hn as [Hne Hn]. right. split; [done|].
        rewrite lookup_insert_ne by congruence. done.
Qed.

(** With distinct keys, the dictionary holds exactly the members. *)
Lemma dict_of_lookup (l : list (string * Value)) (k : string) (v : Value) :
  NoDup l.*1 -> dict_of l !! k = Some v <-> (k, v) ∈ l.
Proof.
  intros Hnd. unfold dict_of. rewrite (foldl_insert_lookup _ _ _ _ Hnd).
  rewrite lookup_empty. naive_solver.
Qed.

Lemma foldl_insert_dom (l : list (string * Value)) (m : gmap string Value) :
  dom (foldl (fun m kv => <[kv.1 := kv.2]> m) m l)
  = dom m ∪ list_to_set l.*1.
Proof.
  revert m. induction l as [|[k v] l IH]; intros m; simpl.
  - set_solver.
  - rewrite IH, dom_insert_L. set_solver.
Qed.

(** The keys of the dictionary are the keys of the members. *)
Lemma dict_of_dom (l : list (string * Value)) :
  dom (dict_of l) = list_to_set l.*1.
Proof. unfold dict_of. rewrite foldl_insert_dom. set_solver. Qed.

Lemma iterkeys_spec (d : gmap string Value) (k : string) :
  k ∈ iterkeys d <-> k ∈ dom d.
Proof.
  unfold iterkeys. rewrite elem_of_dom. split.
  - intros H. apply list_elem_of_fmap in H as [[k' v] [-> H]].
    apply elem_of_map_to_list in H. eauto.
  - intros [v H]. apply list_elem_of_fmap. exists (k, v). split; [done|].
    by apply elem_of_map_to_list.
Qed.

End DictFacts.

(** C6.  When the first argument is the text of an object and keys are
    selected, [jdictvals] returns the pack of one value per key, in the
    order of the keys: the value of the key in the object, or [Null] when
    the object has no such key. *)
Theorem C6_jdictvals_selected (t : string) (members : list (string * Value))
    (k : sqlval) (ks : list sqlval) :
  Jpacks.object_shaped t = Ok true ->
  Json.loads_object t = Some members ->
  exists vals,
    Jpacks.jdictvals (SqlText t :: k :: ks) = Ok (SqlText (Jlist.encode vals))
    /\ length vals = length (k :: ks)
    /\ forall i a, (k :: ks) !! i = Some a ->
         vals !! i
         = Some (match a with
                 | SqlText key =>
                   match Jpacks.dict_of members !! key with
                   | Some v => v
                   | None => Null
                   end
                 | _ => Null
                 end).
Proof.
  intros Hshape Hloads.
  exists (List.map (Jpacks.dict_get (Jpacks.dict_of members)) (k :: ks)).
  split; [|split].
  - unfold Jpacks.jdictvals, Jpacks.loads_dict.
    rewrite Hshape, Hloads. reflexivity.
  - apply List.length_map.
  - intros i a Ha. rewrite DictFacts.map_is_fmap, list_lookup_fmap, Ha.
    reflexivity.
Qed.

Lemma C6_jdictvals_selected_witness :
  exists vals,
    Jpacks.jdictvals
      [SqlText (Json.dumps_object
                  [("k1", Integer 1); ("k2", Integer 2); ("k3", Integer 3)]);
       SqlText "k3"; SqlText "k1"; SqlText "k4"]
    = Ok (SqlText (Jlist.encode vals))
    /\ length vals = 3.
Proof.
  destruct (C6_jdictvals_selected
              (Json.dumps_object
                 [("k1", Integer 1); ("k2", Integer 2); ("k3", Integer 3)])
              [("k1", Integer 1); ("k2", Integer 2); ("k3", Integer 3)]
              (SqlText "k3") [SqlText "k1"; SqlText "k4"]
              eq_refl eq_refl) as (vals & H & Hlen & _).
  exists vals. split; [exact H | exact Hlen].
Defined.

Example jdictvals_missing_key :
  Jpacks.jdictvals
    [SqlText (Json.dumps_object
                [("k1", Integer 1); ("k2", Integer 2); ("k3", Integer 3)]);
     SqlText "k3"; SqlText "k1"; SqlText "k4"]
  = Ok (SqlText "[3,1,null]").
Proof. vm_compute. reflexivity. Qed.

(** ** [jdictvals] without selected keys *)

Module SortFacts.
Import Py.

Lemma item_leb_value_then_key (x y : string * Value) :
  item_leb x y = true -> value_then_key x y.
Proof.
  unfold item_leb, item_cmp, value_then_key.
  destruct (py_cmp x.2 y.2); [|left; reflexivity|discriminate].
  destruct (String.compare x.1 y.1) eqn:E; try discriminate;
    intros _; right; split; congruence.
Qed.

Lemma Sorted_weaken {A} (R R' : A -> A -> Prop) (l : list A) :
  (forall x y, R x y -> R' x y) -> Sorted R l -> Sorted R' l.
Proof.
  intros HR. induction 1 as [|x l _ IH Hhd]; constructor; [exact IH|].
  destruct Hhd; constructor. apply HR. assumption.
Qed.

Lemma sorted_items (l : list (string * Value)) :
  StronglySorted value_then_key (sorted item_leb l).
Proof.
  apply Sorted_StronglySorted.
  - intros x y z. apply PreorderFacts.value_then_key_trans.
  - apply (Sorted_weaken (fun a b => item_leb a b = true)).
    + apply item_leb_value_then_key.
    + apply OrderFacts.sorted_Sorted, OrderFacts.item_leb_total.
Qed.

End SortFacts.

(** C2.  When the only argument is the text of an object, [jdictvals]
    returns the pack of the values of the object, one per key, ordered by
    the pair (value, key): by the value first and, for equal values, by
    the key.  The order is not the order of the keys: the values of
    [{"a":2,"b":1}] come out as [[1,2]]. *)
Theorem C2_jdictvals_value_then_key :
  (forall (t : string) (members : list (string * Value)),
     Jpacks.object_shaped t = Ok true ->
     Json.loads_object t = Some members ->
     exists its : list (string * Value),
       Jpacks.jdictvals [SqlText t] = Ok (SqlText (Jlist.encode its.*2))
       /\ NoDup its.*1
       /\ (forall k v, (k, v) ∈ its <-> Jpacks.dict_of members !! k = Some v)
       /\ StronglySorted Py.value_then_key its)
  /\ Jpacks.jdictvals
       [SqlText (Json.dumps_object [("a", Integer 2); ("b", Integer 1)])]
     = Ok (SqlText "[1,2]").
Proof.
  split; [|vm_compute; reflexivity].
  intros t members Hshape Hloads.
  set (d := Jpacks.dict_of members).
  assert (Hperm : Py.sorted Py.item_leb (map_to_list d) ≡ₚ map_to_list d)
    by apply OrderFacts.sorted_perm.
  exists (Py.sorted Py.item_leb (map_to_list d)). repeat split.
  - unfold Jpacks.jdictvals, Jpacks.loads_dict.
    rewrite Hshape, Hloads. reflexivity.
  - rewrite Hperm. apply NoDup_fst_map_to_list.
  - rewrite Hperm. apply elem_of_map_to_list.
  - rewrite Hperm. apply elem_of_map_to_list.
  - apply SortFacts.sorted_items.
Qed.

Lemma C2_jdictvals_value_then_key_witness :
  exists its : list (string * Value),
    Jpacks.jdictvals
      [SqlText (Json.dumps_object
                  [("k1", Integer 1); ("k2", Integer 2); ("k3", Integer 3)])]
    = Ok (SqlText (Jlist.encode its.*2))
    /\ StronglySorted Py.value_then_key its.
Proof.
  destruct (proj1 C2_jdictvals_value_then_key
              (Json.dumps_object
                 [("k1", Integer 1); ("k2", Integer 2); ("k3", Integer 3)])
              [("k1", Integer 1); ("k2", Integer 2); ("k3", Integer 3)]
              eq_refl eq_refl) as (its & H & _ & _ & Hs).
  exists its. split; [exact H | exact Hs].
Defined.

(** ** [jdictkeys] *)

Module KeysFacts.
Import Jpacks.

Lemma object_shaped_nonempty (t : string) :
  t <> "" -> exists b, object_shaped t = Ok b.
Proof. destruct t; [congruence|]. simpl. eauto. Qed.

Lemma keys_of_text (t : string) :
  acceptable t ->
  exists ks,
    (b <- object_shaped t ;;
     if b then d <- loads_dict t ;; Ok (iterkeys d) else Ok []) = Ok ks
    /\ NoDup ks
    /\ forall k, k ∈ ks <-> contributes t k.
Proof.
  intros [Hne Hobj]. destruct (object_shaped_nonempty t Hne) as [[|] Hb].
  - destruct (Hobj Hb) as [members Hm]. unfold loads_dict.
    rewrite Hb, Hm. simpl. eexists. split; [reflexivity|]. split.
    + apply NoDup_fst_map_to_list.
    + intros k. rewrite DictFacts.iterkeys_spec, DictFacts.dict_of_dom.
      rewrite elem_of_list_to_set. unfold contributes. split.
      * intros H. exists members. auto.
      * intros (m' & _ & Hm' & H). congruence.
  - rewrite Hb. simpl. exists []. split; [reflexivity|].
    split; [constructor|]. intros k. split.
    + intros H. by apply elem_of_nil in H.
    + intros (m' & Hb' & _). congruence.
Qed.

Lemma collect_spec (texts : list string) :
  Forall acceptable texts ->
  exists ks,
    jdictkeys_collect (List.map SqlText texts) = Ok ks
    /\ forall k, k ∈ ks <-> exists t, t ∈ texts /\ contributes t k.
Proof.
  induction 1 as [|t texts Ht _ (rest & Hrest & IH)]; simpl.
  - exists []. split; [reflexivity|]. intros k. split.
    + intros H. by apply elem_of_nil in H.
    + intros (t & H & _). by apply elem_of_nil in H.
  - destruct (keys_of_text t Ht) as (ks & Hks & _ & Hk).
    unfold res_bind in Hks |- *.
    destruct (object_shaped t) as [b|e]; [|discriminate].
    destruct (if b then _ else _) as [ks'|e]; [|discriminate].
    injection Hks as ->. rewrite Hrest. exists (ks ++ rest).
    split; [reflexivity|]. intros k. rewrite elem_of_app, Hk, IH. split.
    + intros [H|(t' & Hin & H)].
      * exists t. split; [apply elem_of_cons; by left | exact H].
      * exists t'. split; [apply elem_of_cons; by right | exact H].
    + intros (t' & Hin & H). apply elem_of_cons in Hin as [->|Hin].
      * by left.
      * right. eauto.
Qed.

End KeysFacts.

(** C5, as the code has it.  A single numeric argument gives the empty
    pack.  For a list of text arguments, none of them empty, in which
    every text that begins with an opening brace and ends with a closing
    brace (as it stands, not trimmed) is the text of an object,
    [jdictkeys] returns the pack of a duplicate-free list of keys: the
    keys of the arguments of that shape, and no others. *)
Theorem C5_jdictkeys_untrimmed :
  (forall n, Jpacks.jdictkeys [SqlInt n] = Ok (Jlist.encode []))
  /\ (forall neg w fh ft,
        Jpacks.jdictkeys [SqlReal neg w fh ft] = Ok (Jlist.encode []))
  /\ (forall texts : list string,
        Forall Jpacks.acceptable texts ->
        exists ks,
          Jpacks.jdictkeys (List.map SqlText texts)
          = Ok (Jlist.encode (List.map Text ks))
          /\ NoDup ks
          /\ forall k, k ∈ ks <->
               exists t, t ∈ texts /\ Jpacks.contributes t k).
Proof.
  split; [reflexivity|]. split; [reflexivity|].
  intros texts Hall.
  assert (Hmulti :
    exists ks,
      (ks' <- Jpacks.jdictkeys_collect (List.map SqlText texts) ;;
       Ok (elements (list_to_set ks' : gset string))) = Ok ks
      /\ NoDup ks
      /\ forall k, k ∈ ks <->
           exists t, t ∈ texts /\ Jpacks.contributes t k).
  { destruct (KeysFacts.collect_spec texts Hall) as (ks' & Hc & Hk).
    rewrite Hc. simpl. eexists. split; [reflexivity|]. split.
    - apply NoDup_elements.
    - intros k. rewrite elem_of_elements, elem_of_list_to_set. apply Hk. }
  destruct texts as [|t [|t' texts]].
  - destruct Hmulti as (ks & H & Hnd & Hk). exists ks.
    unfold Jpacks.jdictkeys.
    change (List.map SqlText []) with (@nil sqlval) in *.
    cbv beta iota. rewrite H. auto.
  - apply Forall_inv in Hall.
    destruct (KeysFacts.keys_of_text t Hall) as (ks & H & Hnd & Hk).
    exists ks. unfold Jpacks.jdictkeys. simpl. rewrite H.
    split; [reflexivity|]. split; [exact Hnd|].
    intros k. rewrite Hk. split.
    + intros Hc. exists t. split; [apply elem_of_cons; by left | exact Hc].
    + intros (t0 & Hin & Hc). apply elem_of_cons in Hin as [->|Hin];
        [exact Hc | by apply elem_of_nil in Hin].
  - destruct Hmulti as (ks & H & Hnd & Hk). exists ks.
    unfold Jpacks.jdictkeys.
    change (List.map SqlText (t :: t' :: texts))
      with (SqlText t :: SqlText t' :: List.map SqlText texts) in *.
    cbv beta iota. rewrite H. auto.
Qed.

Lemma C5_jdictkeys_untrimmed_witness :
  exists ks,
    Jpacks.jdictkeys
      (List.map SqlText
         [Json.dumps_object [("k1", Integer 1); ("k2", Integer 2)];
          Json.dumps_object [("k1", Integer 1); ("k3", Integer 2)];
          "test"])
    = Ok (Jlist.encode (List.map Text ks))
    /\ NoDup ks.
Proof.
  destruct (proj2 (proj2 C5_jdictkeys_untrimmed)
              [Json.dumps_object [("k1", Integer 1); ("k2", Integer 2)];
               Json.dumps_object [("k1", Integer 1); ("k3", Integer 2)];
               "test"]) as (ks & H & Hnd & _).
  - repeat constructor; try discriminate; vm_compute; eauto.
  - exists ks. split; [exact H | exact Hnd].
Defined.

(** C5 does not hold with trimmed texts.  The text of an object with a
    leading blank, once trimmed, begins and ends with the braces and is
    the text of an object with the key [k1]; yet [jdictkeys] collects no
    key from it. *)
Lemma C5_trimmed_counterexample :
  Jpacks.object_shaped
    (Py.strip (" " +:+ Json.dumps_object [("k1", Integer 1)])) = Ok true
  /\ Json.loads_object
       (Py.strip (" " +:+ Json.dumps_object [("k1", Integer 1)]))
     = Some [("k1", Integer 1)]
  /\ Jpacks.jdictkeys
       [SqlText (" " +:+ Json.dumps_object [("k1", Integer 1)])]
     = Ok (Jlist.encode [])
  /\ Jpacks.jdictkeys
       [SqlText (" " +:+ Json.dumps_object [("k1", Integer 1)])]
     <> Ok (Jlist.encode [Text "k1"]).
Proof. repeat split; try (vm_compute; reflexivity). vm_compute. discriminate. Qed.

(** The branch for several arguments indexes every argument, so a number
    among them raises, where the branch for one argument returns the
    empty pack. *)
Example jdictkeys_number_among_several :
  Jpacks.jdictkeys [SqlInt 1; SqlText (Json.dumps_object [("k1", Integer 1)])]
  = Raise TypeError
  /\ Jpacks.jdictkeys [SqlText ""] = Raise IndexError.
Proof. split; reflexivity. Qed.

(** ** The tabular adapter: [j2t] and [t2j] *)

Module TabFacts.
Import Chars Py Jpacks.

Lemma contains_char_app (c : ascii) (s t : string) :
  contains_char c (s +:+ t) = contains_char c s || contains_char c t.
Proof.
  induction s as [|x s IH]; simpl; [reflexivity|].
  rewrite IH. apply orb_assoc.
Qed.



Lemma split_on_whole (sep : ascii) (s : string) :
  contains_char sep s = false -> split_on sep s = [s].
Proof.
  induction s as [|c s IH]; simpl; intros H; [reflexivity|].
  apply orb_false_iff in H as [Hc Hs]. rewrite Hc, (IH Hs). reflexivity.
Qed.



End TabFacts.



(** ** Text *)

Module TextFacts.

Lemma append_cons (x : ascii) (a b : string) :
  String x a +:+ b = String x (a +:+ b).
Proof. reflexivity. Qed.

Lemma append_nil_l (b : string) : "" +:+ b = b.
Proof. reflexivity. Qed.

Lemma append_assoc (a b c : string) : (a +:+ b) +:+ c = a +:+ (b +:+ c).
Proof.
  induction a as [|x a IH]; [reflexivity|].
  rewrite !append_cons, IH. reflexivity.
Qed.

Lemma append_nil_r (a : string) : a +:+ "" = a.
Proof.
  induction a as [|x a IH]; [reflexivity|].
  rewrite append_cons, IH. reflexivity.
Qed.

Lemma length_append (a b : string) :
  String.length (a +:+ b) = String.length a + String.length b.
Proof.
  induction a as [|x a IH]; [reflexivity|].
  rewrite append_cons. simpl. rewrite IH. reflexivity.
Qed.

End TextFacts.

(** ** Reading back what the codec writes *)

Module CodecFacts.
Import Chars Json.

Lemma ends_number_no_digit (rest : string) :
  ends_number rest -> no_digit_ahead rest.
Proof. destruct rest; [done|]. intros [H _]. exact H. Qed.

Lemma read_uint_stop (rest : string) :
  no_digit_ahead rest -> read_uint rest = (Nil, rest).
Proof.
  destruct rest as [|c r]; [reflexivity|]. intros Hd.
  destruct c as [[] [] [] [] [] [] [] []]; try reflexivity; discriminate.
Qed.

Lemma read_uint_written (u : uint) (rest : string) :
  no_digit_ahead rest ->
  read_uint (NilEmpty.string_of_uint u +:+ rest) = (u, rest).
Proof.
  intros H. induction u; simpl; try rewrite IHu; try reflexivity.
  apply read_uint_stop, H.
Qed.

Lemma unorm_shape (u : uint) : unorm u = zero \/ canonical (unorm u) = true.
Proof.
  induction u; simpl; auto.
Qed.

(** The digits of a number start with no needless zero. *)
Lemma canonical_to_uint (n : N) : canonical (N.to_uint n) = true.
Proof.
  rewrite <- (DecimalN.Unsigned.of_to n) at 1.
  rewrite DecimalN.Unsigned.to_of.
  destruct (unorm_shape (N.to_uint n)) as [-> | H]; [reflexivity | exact H].
Qed.

Lemma duncons_dcons (d : digit) (u : uint) : duncons (dcons d u) = Some (d, u).
Proof. destruct d; reflexivity. Qed.

(** A written natural number starts with a digit. *)
Lemma N_text_head (n : N) (rest : string) :
  exists c r, N_text n +:+ rest = String c r /\ is_digit c = true.
Proof.
  unfold N_text. pose proof (canonical_to_uint n) as H.
  destruct (N.to_uint n); simpl; try discriminate; eauto.
Qed.

Lemma parse_number_digit (c : ascii) (r : string) :
  is_digit c = true ->
  parse_number (String c r) = parse_unsigned false (String c r).
Proof.
  destruct c as [[] [] [] [] [] [] [] []]; try reflexivity; discriminate.
Qed.

Lemma parse_unsigned_integer (neg : bool) (n : N) (rest : string) :
  ends_number rest ->
  parse_unsigned neg (N_text n +:+ rest)
  = Some (Integer (if neg then - Z.of_N n else Z.of_N n), rest).
Proof.
  intros H. unfold parse_unsigned, N_text.
  rewrite read_uint_written by apply ends_number_no_digit, H.
  rewrite canonical_to_uint, DecimalN.Unsigned.of_to.
  destruct rest as [|c r]; [reflexivity|]. destruct H as [_ H].
  destruct c as [[] [] [] [] [] [] [] []]; try reflexivity.
  exfalso. apply H. reflexivity.
Qed.

Lemma parse_unsigned_real (neg : bool) (w : N) (fh : digit) (ft : uint)
    (rest : string) :
  no_digit_ahead rest ->
  parse_unsigned neg
    (N_text w +:+ "." +:+ NilEmpty.string_of_uint (dcons fh ft) +:+ rest)
  = Some (Real neg w fh ft, rest).
Proof.
  intros H. unfold parse_unsigned, N_text.
  rewrite read_uint_written by reflexivity.
  rewrite canonical_to_uint, DecimalN.Unsigned.of_to.
  rewrite TextFacts.append_cons, TextFacts.append_nil_l.
  rewrite read_uint_written by exact H.
  rewrite duncons_dcons. reflexivity.
Qed.

(** Reading a written integer. *)
Lemma parse_number_integer (n : Z) (rest : string) :
  ends_number rest ->
  parse_number (Z_text n +:+ rest) = Some (Integer n, rest).
Proof.
  intros H. destruct n as [|p|p]; unfold Z_text.
  - destruct (N_text_head (Z.to_N 0) rest) as (c & r & E & Hc).
    rewrite E, (parse_number_digit c r Hc), <- E.
    apply (parse_unsigned_integer false (Z.to_N 0) rest H).
  - destruct (N_text_head (Z.to_N (Z.pos p)) rest) as (c & r & E & Hc).
    rewrite E, (parse_number_digit c r Hc), <- E.
    apply (parse_unsigned_integer false (Z.to_N (Z.pos p)) rest H).
  - rewrite TextFacts.append_assoc, TextFacts.append_cons,
      TextFacts.append_nil_l.
    apply (parse_unsigned_integer true (N.pos p) rest H).
Qed.

(** Reading a written real. *)
Lemma parse_number_real (neg : bool) (w : N) (fh : digit) (ft : uint)
    (rest : string) :
  no_digit_ahead rest ->
  parse_number (real_text neg w fh ft +:+ rest)
  = Some (Real neg w fh ft, rest).
Proof.
  intros H. unfold real_text. rewrite !TextFacts.append_assoc.
  destruct neg.
  - rewrite TextFacts.append_cons, TextFacts.append_nil_l.
    apply (parse_unsigned_real true w fh ft rest H).
  - rewrite TextFacts.append_nil_l.
    destruct (N_text_head w ("." +:+ NilEmpty.string_of_uint (dcons fh ft)
                             +:+ rest)) as (c & r & E & Hc).
    rewrite E, (parse_number_digit c r Hc), <- E.
    apply (parse_unsigned_real false w fh ft rest H).
Qed.


(** Reading one escaped character. *)
Lemma parse_string_body_char (c : ascii) (r : string) :
  parse_string_body (escape_char c +:+ r)
  = match parse_string_body r with
    | Some (t, r') => Some (String c t, r')
    | None => None
    end.
Proof.
  destruct c as [[] [] [] [] [] [] [] []]; reflexivity.
Qed.

(** Reading a written string, after its opening quote. *)
Lemma parse_string_body_written (s rest : string) :
  parse_string_body (escape s +:+ String dquote rest) = Some (s, rest).
Proof.
  induction s as [|c s IH].
  - reflexivity.
  - change (escape (String c s)) with (escape_char c +:+ escape s).
    rewrite TextFacts.append_assoc, parse_string_body_char, IH.
    reflexivity.
Qed.


Lemma parse_value_S (f : nat) (s : string) :
  parse_value (S f) s
  = match skip_ws s with
    | String "n" (String "u" (String "l" (String "l" r))) => Some (Null, r)
    | String "[" r =>
      match skip_ws r with
      | String "]" r' => Some (Sequence [], r')
      | _ =>
        match parse_items f r with
        | Some (l, r') => Some (Sequence l, r')
        | None => None
        end
      end
    | String c r =>
      if Ascii.eqb c dquote then
        match parse_string_body r with
        | Some (t, r') => Some (Text t, r')
        | None => None
        end
      else parse_number (String c r)
    | "" => None
    end.
Proof. reflexivity. Qed.

Lemma parse_items_S (f : nat) (s : string) :
  parse_items (S f) s
  = match parse_value f s with
    | Some (v, r) =>
      match skip_ws r with
      | String "," r' =>
        match parse_items f r' with
        | Some (l, r'') => Some (v :: l, r'')
        | None => None
        end
      | String "]" r' => Some ([v], r')
      | _ => None
      end
    | None => None
    end.
Proof. reflexivity. Qed.

Lemma parse_value_number_head (f : nat) (c : ascii) (r : string) :
  is_digit c || Ascii.eqb c "-" = true ->
  parse_value (S f) (String c r) = parse_number (String c r).
Proof.
  rewrite parse_value_S.
  destruct c as [[] [] [] [] [] [] [] []]; try reflexivity; discriminate.
Qed.

Lemma parse_value_array_head (f : nat) (c : ascii) (r : string) :
  token_head c = true ->
  parse_value (S f) (String "[" (String c r))
  = match parse_items f (String c r) with
    | Some (l, r') => Some (Sequence l, r')
    | None => None
    end.
Proof.
  rewrite parse_value_S.
  destruct c as [[] [] [] [] [] [] [] []]; try reflexivity; discriminate.
Qed.

Lemma Z_text_head (n : Z) (rest : string) :
  exists c r, Z_text n +:+ rest = String c r
              /\ is_digit c || Ascii.eqb c "-" = true.
Proof.
  destruct n as [|p|p]; unfold Z_text.
  - destruct (N_text_head (Z.to_N 0) rest) as (c & r & E & Hc).
    exists c, r. rewrite Hc. auto.
  - destruct (N_text_head (Z.to_N (Z.pos p)) rest) as (c & r & E & Hc).
    exists c, r. rewrite Hc. auto.
  - eexists _, _. split; [reflexivity|reflexivity].
Qed.

Lemma real_text_head (neg : bool) (w : N) (fh : digit) (ft : uint)
    (rest : string) :
  exists c r, real_text neg w fh ft +:+ rest = String c r
              /\ is_digit c || Ascii.eqb c "-" = true.
Proof.
  unfold real_text. rewrite !TextFacts.append_assoc. destruct neg.
  - eexists _, _. split; reflexivity.
  - rewrite TextFacts.append_nil_l.
    destruct (N_text_head w ("." +:+ NilEmpty.string_of_uint (dcons fh ft)
                             +:+ rest)) as (c & r & E & Hc).
    exists c, r. rewrite Hc. auto.
Qed.

(** Reading a written scalar. *)
Lemma parse_value_scalar (f : nat) (v : Value) (rest : string) :
  is_scalar v = true -> ends_number rest ->
  parse_value (S f) (dumps v +:+ rest) = Some (v, rest).
Proof.
  intros Hv Hrest. destruct v as [ | n | neg w fh ft | s | l];
    [| | | |discriminate].
  - reflexivity.
  - simpl dumps. destruct (Z_text_head n rest) as (c & r & E & Hc).
    rewrite E, (parse_value_number_head f c r Hc), <- E.
    apply parse_number_integer, Hrest.
  - simpl dumps.
    destruct (real_text_head neg w fh ft rest) as (c & r & E & Hc).
    rewrite E, (parse_value_number_head f c r Hc), <- E.
    apply parse_number_real, ends_number_no_digit, Hrest.
  - simpl dumps. unfold quote. rewrite TextFacts.append_cons.
    rewrite parse_value_S. simpl skip_ws. cbv iota. 
    rewrite Ascii.eqb_refl.
    rewrite TextFacts.append_assoc, TextFacts.append_cons,
      TextFacts.append_nil_l.
    rewrite parse_string_body_written. reflexivity.
Qed.

Lemma dumps_scalar_head (v : Value) (rest : string) :
  is_scalar v = true ->
  exists c r, dumps v +:+ rest = String c r /\ token_head c = true.
Proof.
  intros Hv. unfold token_head.
  destruct v as [ | n | neg w fh ft | s | l]; [| | | |discriminate].
  - eexists _, _. split; reflexivity.
  - destruct (Z_text_head n rest) as (c & r & E & Hc).
    exists c, r. simpl dumps. rewrite Hc. auto.
  - destruct (real_text_head neg w fh ft rest) as (c & r & E & Hc).
    exists c, r. simpl dumps. rewrite Hc. auto.
  - eexists _, _. split; [reflexivity|reflexivity].
Qed.


Lemma join_cons2 (sep x y : string) (l : list string) :
  join sep (x :: y :: l) = x +:+ sep +:+ join sep (y :: l).
Proof. reflexivity. Qed.

(** Reading the written elements of an array of scalars, up to the
    closing bracket. *)
Lemma parse_items_scalars (l : list Value) (x : Value) (f : nat)
    (rest : string) :
  Forall (fun v => is_scalar v = true) (x :: l) ->
  length (x :: l) < f ->
  parse_items f (join "," (List.map dumps (x :: l)) +:+ "]" +:+ rest)
  = Some (x :: l, rest).
Proof.
  revert x f. induction l as [|y l IH]; intros x f Hall Hf.
  - destruct f as [|[|f]]; simpl in Hf; try lia.
    rewrite parse_items_S. simpl List.map. simpl join.
    rewrite parse_value_scalar;
      [reflexivity | apply (Forall_inv Hall) | split; [reflexivity|discriminate]].
  - destruct f as [|[|f]]; simpl in Hf; try lia.
    rewrite parse_items_S.
    change (List.map dumps (x :: y :: l))
      with (dumps x :: dumps y :: List.map dumps l).
    rewrite join_cons2, !TextFacts.append_assoc.
    rewrite parse_value_scalar;
      [| apply (Forall_inv Hall) | split; [reflexivity|discriminate]].
    rewrite TextFacts.append_cons, TextFacts.append_nil_l.
    match goal with
    | |- context [skip_ws (String "," ?r)] =>
      change (skip_ws (String "," r)) with (String "," r)
    end.
    cbv beta iota.
    change (dumps y :: List.map dumps l) with (List.map dumps (y :: l)).
    rewrite IH; [reflexivity | apply (Forall_inv_tail Hall) | simpl; lia].
Qed.

Lemma dumps_array_shape (l : list Value) (rest : string) :
  dumps (Sequence l) +:+ rest
  = String "[" (join "," (List.map dumps l) +:+ "]" +:+ rest).
Proof.
  change (dumps (Sequence l))
    with ("[" +:+ join "," (List.map dumps l) +:+ "]").
  rewrite !TextFacts.append_assoc. reflexivity.
Qed.

(** Reading a written array of scalars. *)
Lemma parse_value_scalars (l : list Value) (f : nat) (rest : string) :
  Forall (fun v => is_scalar v = true) l ->
  length l + 1 < f ->
  parse_value f (dumps (Sequence l) +:+ rest) = Some (Sequence l, rest).
Proof.
  intros Hall Hf. destruct f as [|f]; [lia|].
  destruct l as [|x l].
  - reflexivity.
  - rewrite (dumps_array_shape (x :: l) rest).
    assert (Hhead : exists c r,
      join "," (List.map dumps (x :: l)) +:+ "]" +:+ rest = String c r
      /\ token_head c = true).
    { destruct l as [|y l].
      - apply dumps_scalar_head, (Forall_inv Hall).
      - change (List.map dumps (x :: y :: l))
          with (dumps x :: dumps y :: List.map dumps l).
        rewrite join_cons2, !TextFacts.append_assoc.
        apply dumps_scalar_head, (Forall_inv Hall). }
    destruct Hhead as (c & r & E & Hc).
    rewrite E, (parse_value_array_head f c r Hc), <- E.
    rewrite parse_items_scalars; [reflexivity | exact Hall | simpl in *; lia].
Qed.

Lemma length_join (l : list string) :
  length l <= S (String.length (join "," l)).
Proof.
  induction l as [|x [|y l] IH]; simpl; try lia.
  change (join "," (x :: y :: l)) with (x +:+ "," +:+ join "," (y :: l)).
  rewrite !TextFacts.length_append. simpl in *. lia.
Qed.

(** [json.loads] reads back an array of scalars that [json.dumps]
    wrote. *)
Lemma loads_dumps_scalars (l : list Value) :
  Forall (fun v => is_scalar v = true) l ->
  loads (dumps (Sequence l)) = Some (Sequence l).
Proof.
  intros Hall. unfold loads.
  rewrite <- (TextFacts.append_nil_r (dumps (Sequence l))) at 2.
  rewrite parse_value_scalars; [reflexivity | exact Hall |].
  unfold fuel_for.
  rewrite <- (TextFacts.append_nil_r (dumps (Sequence l))).
  rewrite dumps_array_shape.
  change (String.length (String "[" ?s)) with (S (String.length s)).
  rewrite TextFacts.length_append.
  pose proof (length_join (List.map dumps l)) as H.
  rewrite List.length_map in H. lia.
Qed.

(** [json.loads] reads back a scalar that [json.dumps] wrote. *)
Lemma loads_dumps_scalar (v : Value) :
  is_scalar v = true -> loads (dumps v) = Some v.
Proof.
  intros Hv. unfold loads.
  rewrite <- (TextFacts.append_nil_r (dumps v)) at 2.
  assert (Hfuel : exists f, fuel_for (dumps v) = S f)
    by (unfold fuel_for; exists (String.length (dumps v)
                                 + String.length (dumps v) + 1); lia).
  destruct Hfuel as [f ->].
  rewrite parse_value_scalar; [reflexivity | exact Hv | exact I].
Qed.

Lemma decodeFlat_single (t : string) :
  Jlist.decodeFlat [t]
  = (v <- Jlist.decode_arg t ;;
     Ok (match v with Sequence l => l ++ [] | _ => [v] end)).
Proof. reflexivity. Qed.

Lemma decode_arg_loads (t : string) (v : Value) :
  loads t = Some v -> Jlist.decode_arg t = Ok v.
Proof. intros H. unfold Jlist.decode_arg. rewrite H. reflexivity. Qed.

End CodecFacts.

(** * Further properties of the row functions *)

(** ** [jsort] and [jset] *)

Module SortSetFacts.
Import Py.

Lemma py_cmp_refl (a : Value) : py_cmp a a = Eq.
Proof.
  pose proof (OrderFacts.py_cmp_antisym a a) as H.
  destruct (py_cmp a a); simpl in H; congruence.
Qed.

Lemma py_cmp_Lt_trans (a b d : Value) :
  py_cmp a b = Lt -> py_cmp b d = Lt -> py_cmp a d = Lt.
Proof. apply (PreorderFacts.py_cmp_consistent a b d). Qed.

Lemma py_le_trans (a b d : Value) :
  py_cmp a b <> Gt -> py_cmp b d <> Gt -> py_cmp a d <> Gt.
Proof.
  intros H1 H2.
  assert (E : forall x y, py_cmp x y <> Gt <-> py_leb x y = true).
  { intros x y. unfold py_leb. destruct (py_cmp x y); split; congruence. }
  apply E. apply (PreorderFacts.py_leb_trans a b d); apply E; assumption.
Qed.

(** [sorted] with Python's order gives a list in which every element is
    at most every later one. *)
Lemma sorted_values (l : list Value) :
  StronglySorted (fun a b => py_cmp a b <> Gt) (sorted py_leb l).
Proof.
  apply Sorted_StronglySorted.
  - intros x y z. apply py_le_trans.
  - apply (SortFacts.Sorted_weaken (fun a b => py_leb a b = true)).
    + intros x y. unfold py_leb. destruct (py_cmp x y); congruence.
    + apply OrderFacts.sorted_Sorted, OrderFacts.py_leb_total.
Qed.

(** Inserting a value that equals none of a strictly increasing list
    keeps the list strictly increasing. *)
Lemma insert_strict (x : Value) (l : list Value) :
  StronglySorted (fun a b => py_cmp a b = Lt) l ->
  Forall (fun y => py_cmp x y <> Eq) l ->
  StronglySorted (fun a b => py_cmp a b = Lt) (insert_sorted py_leb x l).
Proof.
  induction 1 as [|y r Hr IH Hy]; intros Hx; simpl.
  - repeat constructor.
  - apply Forall_cons in Hx as [Hxy Hxr]. unfold py_leb at 1.
    destruct (py_cmp x y) eqn:E; [congruence| |].
    + constructor; [constructor; assumption|].
      constructor; [exact E|].
      eapply Forall_impl; [exact Hy|]. intros z Hz.
      exact (py_cmp_Lt_trans x y z E Hz).
    + constructor; [apply IH, Hxr|].
      rewrite (OrderFacts.insert_sorted_perm py_leb x r).
      constructor; [|exact Hy].
      rewrite (OrderFacts.py_cmp_antisym x y), E. reflexivity.
Qed.

(** Sorting a list of pairwise different values gives a strictly
    increasing list. *)
Lemma sorted_strict (l : list Value) :
  StronglySorted (fun a b => py_cmp a b <> Eq) l ->
  StronglySorted (fun a b => py_cmp a b = Lt) (sorted py_leb l).
Proof.
  induction 1 as [|x l _ IH Hx]; simpl; [constructor|].
  apply insert_strict; [exact IH|].
  rewrite (OrderFacts.sorted_perm py_leb l). exact Hx.
Qed.

Lemma existsb_py_eqb (x : Value) (seen : list Value) :
  existsb (py_eqb x) seen = false -> Forall (fun y => py_cmp y x <> Eq) seen.
Proof.
  induction seen as [|y seen IH]; simpl; [constructor|].
  intros H. apply orb_false_iff in H as [Hy Hs].
  constructor; [|apply IH, Hs].
  unfold py_eqb in Hy. rewrite (OrderFacts.py_cmp_antisym x y).
  destruct (py_cmp x y); simpl; congruence.
Qed.

Lemma existsb_py_eqb_true (x : Value) (seen : list Value) :
  existsb (py_eqb x) seen = true -> exists y, y ∈ seen /\ py_cmp x y = Eq.
Proof.
  intros H. apply existsb_exists in H as (y & Hin & Hy).
  exists y. split; [by apply list_elem_of_In|].
  unfold py_eqb in Hy. destruct (py_cmp x y); congruence.
Qed.

Lemma distinct_snoc (seen : list Value) (x : Value) :
  StronglySorted (fun a b => py_cmp a b <> Eq) seen ->
  Forall (fun y => py_cmp y x <> Eq) seen ->
  StronglySorted (fun a b => py_cmp a b <> Eq) (seen ++ [x]).
Proof.
  induction 1 as [|y r Hr IH Hy]; intros Hx; simpl.
  - repeat constructor.
  - apply Forall_cons in Hx as [Hyx Hrx].
    constructor; [apply IH, Hrx|].
    apply Forall_app. split; [exact Hy|]. constructor; [exact Hyx|constructor].
Qed.

(** What [set] keeps: pairwise different values, all taken from what was
    there, and one equal to each value that was there. *)
Lemma set_add_all_spec (l seen s : list Value) :
  set_add_all seen l = Ok s ->
  StronglySorted (fun a b => py_cmp a b <> Eq) seen ->
  StronglySorted (fun a b => py_cmp a b <> Eq) s
  /\ (forall x, x ∈ s -> x ∈ seen \/ x ∈ l)
  /\ (forall x, x ∈ seen \/ x ∈ l -> exists y, y ∈ s /\ py_cmp x y = Eq).
Proof.
  revert seen. induction l as [|x l IH]; intros seen Hs Hd; simpl in Hs.
  - injection Hs as <-. split; [exact Hd|]. split; [auto|].
    intros x [H|H]; [|by apply elem_of_nil in H].
    exists x. split; [exact H | apply py_cmp_refl].
  - destruct (is_scalar x); [|discriminate].
    destruct (existsb (py_eqb x) seen) eqn:E.
    + destruct (IH seen Hs Hd) as (H1 & H2 & H3).
      split; [exact H1|]. split.
      * intros z Hz. destruct (H2 z Hz) as [H|H]; [by left|].
        right. apply elem_of_cons. by right.
      * intros z [Hz|Hz]; [apply H3; by left|].
        apply elem_of_cons in Hz as [->|Hz]; [|apply H3; by right].
        destruct (existsb_py_eqb_true x seen E) as (y & Hy & Exy).
        destruct (H3 y (or_introl Hy)) as (y' & Hy' & Eyy').
        exists y'. split; [exact Hy'|].
        destruct (PreorderFacts.py_cmp_consistent x y y') as (HA & _).
        rewrite <- (HA Exy). exact Eyy'.
    + destruct (IH (seen ++ [x]) Hs
                  (distinct_snoc seen x Hd (existsb_py_eqb x seen E)))
        as (H1 & H2 & H3).
      split; [exact H1|]. split.
      * intros z Hz. destruct (H2 z Hz) as [H|H].
        -- apply elem_of_app in H as [H|H]; [by left|].
           apply list_elem_of_singleton in H as ->.
           right. apply elem_of_cons. by left.
        -- right. apply elem_of_cons. by right.
      * intros z [Hz|Hz].
        -- apply H3. left. apply elem_of_app. by left.
        -- apply elem_of_cons in Hz as [->|Hz].
           ++ apply H3. left. apply elem_of_app. right.
              by apply list_elem_of_singleton.
           ++ apply H3. by right.
Qed.

End SortSetFacts.

(** X1.  [jsort] returns the pack of a rearrangement of the decoded
    elements (nothing added, nothing dropped, duplicates kept) in which
    every element is at most every later one in Python's order. *)
Theorem X1_jsort_sorted_permutation (args : list sqlval) (l : list Value) :
  Jlist.fromj args = Ok l ->
  exists l',
    Jpacks.jsort args = Ok (Jlist.encode l')
    /\ l' ≡ₚ l
    /\ StronglySorted (fun a b => Py.py_cmp a b <> Gt) l'.
Proof.
  intros H. exists (Py.sorted Py.py_leb l). split; [|split].
  - unfold Jpacks.jsort. rewrite H. reflexivity.
  - apply OrderFacts.sorted_perm.
  - apply SortSetFacts.sorted_values.
Qed.

Lemma X1_jsort_sorted_permutation_witness :
  exists l',
    Jpacks.jsort [SqlText "[3,1,2]"; SqlText "b"; SqlText "a"; SqlInt 3]
    = Ok (Jlist.encode l')
    /\ l' ≡ₚ [Integer 3; Integer 1; Integer 2; Text "b"; Text "a"; Integer 3].
Proof.
  destruct (X1_jsort_sorted_permutation
              [SqlText "[3,1,2]"; SqlText "b"; SqlText "a"; SqlInt 3]
              [Integer 3; Integer 1; Integer 2; Text "b"; Text "a"; Integer 3]
              eq_refl) as (l' & H & Hp & _).
  exists l'. split; [exact H | exact Hp].
Defined.

(** X2.  When every decoded element is a scalar, [jset] returns the pack
    of a strictly increasing list: no two of its elements are equal, each
    of them is one of the decoded elements, and each decoded element is
    equal to one of them. *)
Theorem X2_jset_strictly_increasing (args : list sqlval) (l : list Value) :
  Jlist.fromj args = Ok l ->
  Forall (fun x => is_scalar x = true) l ->
  exists l',
    Jpacks.jset args = Ok (Jlist.encode l')
    /\ StronglySorted (fun a b => Py.py_cmp a b = Lt) l'
    /\ (forall x, x ∈ l' -> x ∈ l)
    /\ (forall x, x ∈ l -> exists y, y ∈ l' /\ Py.py_cmp x y = Eq).
Proof.
  intros H Hall. unfold Jpacks.jset, Py.py_set. rewrite H. cbn [res_bind].
  destruct (SetFacts.set_add_all_scalars l [] Hall) as [s Hs].
  rewrite Hs. cbn [res_bind].
  destruct (SortSetFacts.set_add_all_spec l [] s Hs (SSorted_nil _))
    as (Hd & Hin & Hcov).
  exists (Py.sorted Py.py_leb s). split; [reflexivity|]. split; [|split].
  - apply SortSetFacts.sorted_strict, Hd.
  - intros x Hx. rewrite (OrderFacts.sorted_perm Py.py_leb s) in Hx.
    destruct (Hin x Hx) as [Hn|Hl]; [by apply elem_of_nil in Hn | exact Hl].
  - intros x Hx. destruct (Hcov x (or_intror Hx)) as (y & Hy & E).
    exists y. split; [|exact E].
    rewrite (OrderFacts.sorted_perm Py.py_leb s). exact Hy.
Qed.

Lemma X2_jset_strictly_increasing_witness :
  exists l',
    Jpacks.jset [SqlText "[1,2,3]"; SqlText "[1,2,3]"; SqlText "b";
                 SqlText "a"; SqlInt 3]
    = Ok (Jlist.encode l')
    /\ StronglySorted (fun a b => Py.py_cmp a b = Lt) l'.
Proof.
  destruct (X2_jset_strictly_increasing
              [SqlText "[1,2,3]"; SqlText "[1,2,3]"; SqlText "b";
               SqlText "a"; SqlInt 3]
              [Integer 1; Integer 2; Integer 3; Integer 1; Integer 2;
               Integer 3; Text "b"; Text "a"; Integer 3]
              eq_refl ltac:(repeat constructor)) as (l' & H & Hs & _).
  exists l'. split; [exact H | exact Hs].
Defined.

(** ** [jfilterempty], [jsplitv] and [jsplit] *)

Module RowFacts.
Import Jpacks.





(** The events of a loop that yields once for each element. *)
Lemma for_each_emit {E A} (f : A -> E) (l : list A) :
  for_each l (fun x => emit (f x)) = Gen (List.map f l) (Ok tt).
Proof.
  induction l as [|x l IH]; simpl; [reflexivity|].
  rewrite IH. reflexivity.
Qed.

(** Different numbers are written differently. *)
Lemma Z_text_inj (a b : Z) : Z_text a = Z_text b -> a = b.
Proof.
  intros H.
  pose proof (CodecFacts.parse_number_integer a "" I) as Ha.
  pose proof (CodecFacts.parse_number_integer b "" I) as Hb.
  rewrite H in Ha. rewrite Ha in Hb. congruence.
Qed.

Lemma column_names_NoDup (n : nat) : NoDup (column_names n).
Proof.
  unfold column_names. rewrite DictFacts.map_is_fmap.
  apply NoDup_fmap_2; [|apply NoDup_ListNoDup, seq_NoDup].
  intros a b [= H]. apply Z_text_inj in H. lia.
Qed.

Lemma column_names_lookup (n i : nat) :
  i < n ->
  column_names n !! i = Some (Text ("C" +:+ Z_text (Z.of_nat (S i)))).
Proof.
  intros H. unfold column_names.
  rewrite DictFacts.map_is_fmap, list_lookup_fmap.
  rewrite lookup_seq_lt by exact H. reflexivity.
Qed.

End RowFacts.



(** X4.  [jsplitv] yields the tuple [('C1',)] and then one list of one
    cell for each decoded element, in the order of the elements, and
    returns.  When the arguments cannot be decoded, the tuple is yielded
    all the same and the error is raised at the next [next()]. *)
Theorem X4_jsplitv_stream (args : list sqlval) :
  (forall l, Jlist.fromj args = Ok l ->
     Jpacks.jsplitv args
     = Gen (Jpacks.PyTuple [Text "C1"]
            :: List.map (fun x => Jpacks.PyList [Text (Jlist.toj x)]) l)
           (Ok tt))
  /\ (forall e, Jlist.fromj args = Raise e ->
        Jpacks.jsplitv args = Gen [Jpacks.PyTuple [Text "C1"]] (Raise e)
        /\ next_at 1 (Jpacks.jsplitv args)
           = match e with StopIteration => EndOfStream | _ => Failure e end).
Proof.
  split.
  - intros l H. unfold Jpacks.jsplitv. rewrite H.
    unfold gen_bind at 2. cbn [gen_lift ending trace app].
    rewrite (RowFacts.for_each_emit
               (fun x => Jpacks.PyList [Text (Jlist.toj x)]) l).
    reflexivity.
  - intros e H. unfold Jpacks.jsplitv. rewrite H. split; [reflexivity|].
    destruct e; reflexivity.
Qed.

Lemma X4_jsplitv_stream_witness :
  Jpacks.jsplitv [SqlText "[1,2]"; SqlText "b"]
  = Gen [Jpacks.PyTuple [Text "C1"]; Jpacks.PyList [Text "1"];
         Jpacks.PyList [Text "2"]; Jpacks.PyList [Text "b"]] (Ok tt)
  /\ Jpacks.jsplitv [SqlText "[1,"]
     = Gen [Jpacks.PyTuple [Text "C1"]] (Raise DecodeError).
Proof.
  split.
  - apply (proj1 (X4_jsplitv_stream [SqlText "[1,2]"; SqlText "b"])
             [Integer 1; Integer 2; Text "b"] eq_refl).
  - apply (proj2 (X4_jsplitv_stream [SqlText "[1,"]) DecodeError eq_refl).
Defined.

(** X5.  On a decoded sequence of [n >= 1] elements [jsplit] yields
    exactly two items: the tuple of the [n] pairwise different names
    [C1 .. Cn] and one list of [n] cells, the packs of the elements in
    their order.  When the arguments cannot be decoded it raises before
    it yields anything. *)
Theorem X5_jsplit_stream (args : list sqlval) :
  (forall x l, Jlist.fromj args = Ok (x :: l) ->
     exists names cells,
       Jpacks.jsplit args
       = Gen [Jpacks.PyTuple names; Jpacks.PyList cells] (Ok tt)
       /\ length names = S (length l) /\ length cells = S (length l)
       /\ NoDup names
       /\ (forall i, i < S (length l) ->
             names !! i = Some (Text ("C" +:+ Z_text (Z.of_nat (S i)))))
       /\ cells = List.map (fun y => Text (Jlist.toj y)) (x :: l))
  /\ (forall e, Jlist.fromj args = Raise e ->
        Jpacks.jsplit args = Gen [] (Raise e)).
Proof.
  split.
  - intros x l H. eexists _, _.
    split; [apply (jsplit_nonempty args x l H)|].
    split; [unfold Jpacks.column_names;
            rewrite List.length_map, List.length_seq; reflexivity|].
    split; [apply List.length_map|].
    split; [apply RowFacts.column_names_NoDup|].
    split; [|reflexivity].
    intros i Hi. apply RowFacts.column_names_lookup. exact Hi.
  - intros e H. unfold Jpacks.jsplit. rewrite H. reflexivity.
Qed.

Lemma X5_jsplit_stream_witness :
  exists names cells,
    Jpacks.jsplit [SqlText "[1,2,3]"; SqlText "[3,4,5]"]
    = Gen [Jpacks.PyTuple names; Jpacks.PyList cells] (Ok tt)
    /\ length names = 6 /\ NoDup names.
Proof.
  destruct (proj1 (X5_jsplit_stream [SqlText "[1,2,3]"; SqlText "[3,4,5]"])
              (Integer 1)
              [Integer 2; Integer 3; Integer 3; Integer 4; Integer 5]
              eq_refl) as (names & cells & H & Hn & _ & Hd & _).
  exists names, cells. split; [exact H|]. split; [exact Hn | exact Hd].
Defined.

(** ** Texts that [json.loads] refuses *)

Module RefusalFacts.
Import Chars Json.

(** Nothing is read from a text that starts with a character that no
    JSON document starts with. *)
Lemma no_value (c : ascii) (r : string) :
  starts_no_value c = true ->
  loads (String c r) = None /\ loads_object (String c r) = None.
Proof.
  intros H.
  destruct c as [[] [] [] [] [] [] [] []]; vm_compute in H;
    try discriminate H; split; reflexivity.
Qed.

(** Nor is an object read when something else than a key or the closing
    brace follows its opening brace. *)
Lemma no_member (c : ascii) (r : string) :
  starts_no_member c = true ->
  loads (String "{" (String c r)) = None
  /\ loads_object (String "{" (String c r)) = None.
Proof.
  intros H.
  destruct c as [[] [] [] [] [] [] [] []]; vm_compute in H;
    try discriminate H; split; reflexivity.
Qed.

Lemma no_document : loads "" = None /\ loads_object "" = None.
Proof. split; reflexivity. Qed.

End RefusalFacts.

(** ** [jdictvals] and [jdictsplit] *)

Module DictRowFacts.
Import Jpacks.

Lemma last_char_snoc (body : string) (z : ascii) :
  last_char (body +:+ String z "") = Some z.
Proof.
  induction body as [|c body IH]; [reflexivity|].
  rewrite TextFacts.append_cons. simpl. rewrite IH.
  destruct (body +:+ String z "") eqn:E; [|reflexivity].
  destruct body; discriminate.
Qed.

Lemma last_char_inv (s : string) (z : ascii) :
  last_char s = Some z -> exists body, s = body +:+ String z "".
Proof.
  induction s as [|c s IH]; simpl; [discriminate|].
  destruct s as [|c' s].
  - intros [= ->]. exists "". reflexivity.
  - intros H. destruct (IH H) as [body ->].
    exists (String c body). reflexivity.
Qed.

(** The test of [jdictvals] and [jdictkeys] on a text: it is an opening
    brace, anything, and a closing brace. *)
Lemma object_shaped_iff (t : string) :
  object_shaped t = Ok true <-> exists body, t = String "{" (body +:+ "}").
Proof.
  split.
  - destruct t as [|c r]; simpl; [discriminate|]. intros [= H].
    apply andb_true_iff in H as [Hc Hl]. apply Ascii.eqb_eq in Hc as ->.
    destruct r as [|c' r']; [discriminate|].
    destruct (last_char (String c' r')) as [z|] eqn:E; [|discriminate].
    apply Ascii.eqb_eq in Hl as ->.
    destruct (last_char_inv _ _ E) as [body ->]. eauto.
  - intros [body ->].
    change (String "{" (body +:+ "}")) with (String "{" body +:+ "}").
    unfold object_shaped. rewrite TextFacts.append_cons.
    rewrite <- TextFacts.append_cons, last_char_snoc. reflexivity.
Qed.

Lemma object_shaped_cases (t : string) :
  t <> "" -> object_shaped t = Ok true \/ object_shaped t = Ok false.
Proof.
  intros H. destruct (KeysFacts.object_shaped_nonempty t H) as [[|] E]; auto.
Qed.

End DictRowFacts.

(** X6.  [jdictvals] returns its first argument unchanged, whatever keys
    follow, when it is a number or a non-empty text that is not an
    opening brace, anything, and a closing brace.  It raises [IndexError]
    on no argument and on the empty text, and [ValueError] on a text in
    braces in which something else than white space, a key or the
    closing brace follows the opening brace, as in [{k1}]. *)
Theorem X6_jdictvals_pass_through :
  (forall n keys, Jpacks.jdictvals (SqlInt n :: keys) = Ok (SqlInt n))
  /\ (forall neg w fh ft keys,
        Jpacks.jdictvals (SqlReal neg w fh ft :: keys)
        = Ok (SqlReal neg w fh ft))
  /\ (forall t keys,
        t <> "" -> (forall body, t <> String "{" (body +:+ "}")) ->
        Jpacks.jdictvals (SqlText t :: keys) = Ok (SqlText t))
  /\ Jpacks.jdictvals [] = Raise IndexError
  /\ (forall keys, Jpacks.jdictvals (SqlText "" :: keys) = Raise IndexError)
  /\ (forall c body keys,
        Json.starts_no_member c = true ->
        Jpacks.jdictvals
          (SqlText (String "{" (String c body +:+ "}")) :: keys)
        = Raise ValueError).
Proof.
  repeat apply conj; try reflexivity.
  - intros t keys Hne Hshape. unfold Jpacks.jdictvals.
    destruct (DictRowFacts.object_shaped_cases t Hne) as [E|E].
    + apply DictRowFacts.object_shaped_iff in E as [body ->].
      exfalso. apply (Hshape body). reflexivity.
    + rewrite E. reflexivity.
  - intros c body keys H. unfold Jpacks.jdictvals, Jpacks.loads_dict.
    rewrite (proj2 (DictRowFacts.object_shaped_iff _)) by eauto.
    cbn [res_bind]. rewrite TextFacts.append_cons.
    rewrite (proj2 (RefusalFacts.no_member c (body +:+ "}") H)).
    reflexivity.
Qed.

Lemma X6_jdictvals_pass_through_witness :
  Jpacks.jdictvals [SqlText "test"; SqlText "k1"] = Ok (SqlText "test")
  /\ Jpacks.jdictvals [SqlText "{k1}"] = Raise ValueError.
Proof.
  split.
  - apply (proj1 (proj2 (proj2 X6_jdictvals_pass_through))).
    + discriminate.
    + intros body. discriminate.
  - apply (proj2 (proj2 (proj2 (proj2 (proj2 X6_jdictvals_pass_through))))
             "k"%char "1" []).
    reflexivity.
Defined.

(** X7.  On the text of an object, [jdictsplit] yields exactly two
    items, a tuple of names and a list of values of the same length, and
    the list of values is the one that [jdictvals] packs for the same
    arguments; the value under a name that is a text is the value of
    that key in the object, or [None]. *)
Theorem X7_jdictsplit_agrees_with_jdictvals (t : string)
    (members : list (string * Value)) (keys : list sqlval) :
  Jpacks.object_shaped t = Ok true ->
  Json.loads_object t = Some members ->
  exists header row,
    Jpacks.jdictsplit (SqlText t :: keys)
    = Gen [Jpacks.PyTuple header; Jpacks.PyList row] (Ok tt)
    /\ Jpacks.jdictvals (SqlText t :: keys) = Ok (SqlText (Jlist.encode row))
    /\ length header = length row
    /\ (keys <> [] -> header = List.map Jpacks.val_of_arg keys)
    /\ (forall i k, header !! i = Some (Text k) ->
          row !! i = Some (default Null (Jpacks.dict_of members !! k))).
Proof.
  intros Hshape Hloads. set (d := Jpacks.dict_of members).
  unfold Jpacks.jdictsplit, Jpacks.jdictvals, Jpacks.loads_dict,
    Jpacks.loads_doc.
  rewrite Hshape, Hloads. cbn [res_bind]. fold d.
  destruct keys as [|k keys].
  - set (its := Py.sorted Py.item_leb (Jpacks.items d)).
    exists (List.map Text its.*1), (its.*2).
    split; [reflexivity|]. split; [reflexivity|].
    split; [rewrite List.length_map, !length_fmap; reflexivity|].
    split; [congruence|].
    intros i key Hi.
    rewrite DictFacts.map_is_fmap, !list_lookup_fmap in Hi.
    rewrite list_lookup_fmap.
    destruct (its !! i) as [[k' v]|] eqn:E; [|discriminate].
    simpl in Hi. injection Hi as ->. simpl. f_equal.
    assert (Hin : (key, v) ∈ Jpacks.items d).
    { rewrite <- (OrderFacts.sorted_perm Py.item_leb (Jpacks.items d)).
      apply list_elem_of_lookup. eauto. }
    apply elem_of_map_to_list in Hin. rewrite Hin. reflexivity.
  - exists (List.map Jpacks.val_of_arg (k :: keys)),
      (List.map (Jpacks.dict_get d) (k :: keys)).
    split; [reflexivity|]. split; [reflexivity|].
    split; [rewrite !List.length_map; reflexivity|].
    split; [reflexivity|].
    intros i key Hi.
    rewrite DictFacts.map_is_fmap, list_lookup_fmap in Hi.
    rewrite DictFacts.map_is_fmap, list_lookup_fmap.
    destruct ((k :: keys) !! i) as [a|]; [|discriminate].
    simpl in Hi. destruct a; try discriminate.
    injection Hi as ->. reflexivity.
Qed.

Lemma X7_jdictsplit_agrees_with_jdictvals_witness :
  exists header row,
    Jpacks.jdictsplit
      [SqlText (Json.dumps_object [("k1", Integer 1); ("k2", Integer 2)]);
       SqlText "k2"; SqlText "k4"]
    = Gen [Jpacks.PyTuple header; Jpacks.PyList row] (Ok tt)
    /\ length header = length row.
Proof.
  destruct (X7_jdictsplit_agrees_with_jdictvals
              (Json.dumps_object [("k1", Integer 1); ("k2", Integer 2)])
              [("k1", Integer 1); ("k2", Integer 2)]
              [SqlText "k2"; SqlText "k4"] eq_refl eq_refl)
    as (header & row & H & _ & Hl & _).
  exists header, row. split; [exact H | exact Hl].
Defined.

(** X8.  [jdictsplit] has no test on the shape of its first argument:
    it raises before it yields anything on no argument ([IndexError]),
    on a number ([TypeError]), on a text that no JSON document can be
    (the empty text, a text whose first character no JSON document
    starts with, as in [abc], an opening brace followed by something
    else than white space, a key or the closing brace, as in [{k1}]:
    [ValueError]) and, without keys, on the text of a JSON array, number,
    string or [null] ([AttributeError]).  With keys that are texts, such
    a text gives the keys and a row of [None]. *)
Theorem X8_jdictsplit_first_argument :
  Jpacks.jdictsplit [] = Gen [] (Raise IndexError)
  /\ (forall n keys,
        Jpacks.jdictsplit (SqlInt n :: keys) = Gen [] (Raise TypeError))
  /\ (forall keys,
        Jpacks.jdictsplit (SqlText "" :: keys) = Gen [] (Raise ValueError))
  /\ (forall c r keys,
        Json.starts_no_value c = true ->
        Jpacks.jdictsplit (SqlText (String c r) :: keys)
        = Gen [] (Raise ValueError))
  /\ (forall c r keys,
        Json.starts_no_member c = true ->
        Jpacks.jdictsplit (SqlText (String "{" (String c r)) :: keys)
        = Gen [] (Raise ValueError))
  /\ (forall t v,
        Json.loads_object t = None -> Json.loads t = Some v ->
        Jpacks.jdictsplit [SqlText t] = Gen [] (Raise AttributeError))
  /\ (forall t v k keys,
        Json.loads_object t = None -> Json.loads t = Some v ->
        Jpacks.jdictsplit (SqlText t :: List.map SqlText (k :: keys))
        = Gen [Jpacks.PyTuple (List.map Text (k :: keys));
               Jpacks.PyList (List.map (fun _ => Null) (k :: keys))]
              (Ok tt)).
Proof.
  repeat apply conj; try reflexivity.
  - intros c r keys H. unfold Jpacks.jdictsplit, Jpacks.loads_doc.
    destruct (RefusalFacts.no_value c r H) as [-> ->]. reflexivity.
  - intros c r keys H. unfold Jpacks.jdictsplit, Jpacks.loads_doc.
    destruct (RefusalFacts.no_member c r H) as [-> ->]. reflexivity.
  - intros t v H1 H2. unfold Jpacks.jdictsplit, Jpacks.loads_doc.
    rewrite H1, H2. reflexivity.
  - intros t v k keys H1 H2.
    assert (Hn : forall l, List.map Jpacks.val_of_arg (List.map SqlText l)
                           = List.map Text l).
    { intros l. rewrite List.map_map. apply List.map_ext. reflexivity. }
    assert (Hv : forall l,
               List.map (Jpacks.doc_get (Jpacks.DocValue v))
                 (List.map SqlText l)
               = List.map (fun _ => Null) l).
    { intros l. rewrite List.map_map. apply List.map_ext.
      intros a. destruct v; reflexivity. }
    rewrite <- (Hn (k :: keys)), <- (Hv (k :: keys)).
    unfold Jpacks.jdictsplit, Jpacks.loads_doc.
    rewrite H1, H2. reflexivity.
Qed.

Lemma X8_jdictsplit_first_argument_witness :
  Jpacks.jdictsplit [SqlText "abc"; SqlText "k1"] = Gen [] (Raise ValueError)
  /\ Jpacks.jdictsplit [SqlText "{k1}"] = Gen [] (Raise ValueError)
  /\ Jpacks.jdictsplit [SqlText "[1,2]"] = Gen [] (Raise AttributeError).
Proof.
  pose proof X8_jdictsplit_first_argument
    as (_ & _ & _ & Hvalue & Hmember & Hdoc & _).
  split; [|split].
  - apply (Hvalue "a"%char "bc"). reflexivity.
  - apply (Hmember "k"%char "1}"). reflexivity.
  - apply (Hdoc "[1,2]" (Sequence [Integer 1; Integer 2])); reflexivity.
Defined.

(** ** [t2j] and then [j2t] *)

Module SplitFacts.
Import Chars Py.

Lemma split_on_cons (sep : ascii) (s : string) :
  exists h t, split_on sep s = h :: t.
Proof.
  destruct s as [|c r]; simpl; [eauto|].
  destruct (Ascii.eqb c sep); [eauto|].
  destruct (split_on sep r); eauto.
Qed.

Lemma join_cons_char (sep : string) (c : ascii) (h : string)
    (t : list string) :
  join sep (String c h :: t) = String c (join sep (h :: t)).
Proof. destruct t; reflexivity. Qed.

(** [sep.join(s.split(sep))] is [s]. *)
Lemma join_split_on (sep : ascii) (s : string) :
  join (String sep "") (split_on sep s) = s.
Proof.
  induction s as [|c r IH]; [reflexivity|]. simpl.
  destruct (split_on_cons sep r) as (h & t & E). rewrite E in IH |- *.
  destruct (Ascii.eqb c sep) eqn:Ec.
  - apply Ascii.eqb_eq in Ec as ->.
    change (join (String sep "") ("" :: h :: t))
      with (String sep (join (String sep "") (h :: t))).
    rewrite IH. reflexivity.
  - rewrite join_cons_char, IH. reflexivity.
Qed.

(** No field of [s.split(sep)] holds the separator. *)
Lemma split_on_fields (sep : ascii) (s : string) :
  Forall (fun f => contains_char sep f = false) (split_on sep s).
Proof.
  induction s as [|c r IH]; simpl.
  - constructor; [reflexivity | constructor].
  - destruct (Ascii.eqb c sep) eqn:Ec.
    + constructor; [reflexivity | exact IH].
    + destruct (split_on sep r) as [|h t]; constructor.
      * simpl. rewrite Ec. reflexivity.
      * constructor.
      * simpl. rewrite Ec. apply (Forall_inv IH).
      * apply (Forall_inv_tail IH).
Qed.

(** A text that holds the separator has at least two fields. *)
Lemma split_on_two (sep : ascii) (s : string) :
  contains_char sep s = true -> exists f g r, split_on sep s = f :: g :: r.
Proof.
  induction s as [|c r IH]; simpl; [discriminate|]. intros H.
  destruct (Ascii.eqb c sep) eqn:Ec.
  - destruct (split_on_cons sep r) as (h & t & ->). eauto.
  - destruct (IH H) as (f & g & r' & ->). eauto.
Qed.

Lemma replace_tab_id (s : string) :
  contains_char tab s = false -> replace_tab s = s.
Proof.
  induction s as [|c r IH]; simpl; [reflexivity|]. intros H.
  apply orb_false_iff in H as [-> Hr]. rewrite (IH Hr). reflexivity.
Qed.

Lemma tab_fields_of_texts (fs : list string) :
  Forall (fun f => contains_char tab f = false) fs ->
  List.map Jpacks.tab_field (List.map Text fs) = fs.
Proof.
  induction 1 as [|f fs Hf _ IH]; [reflexivity|]. simpl.
  rewrite IH. unfold Jpacks.tab_field at 1. simpl.
  rewrite (replace_tab_id f Hf). reflexivity.
Qed.

Lemma texts_scalar (fs : list string) :
  Forall (fun v => is_scalar v = true) (List.map Text fs).
Proof. induction fs; constructor; [reflexivity | assumption]. Qed.

End SplitFacts.

(** X9.  [t2j] returns a text without a tab as it is.  For a text that
    holds a tab, [t2j] gives the array of its fields, two or more, and
    [j2t] of that array gives the text back. *)
Theorem X9_t2j_then_j2t (s : string) :
  (Py.contains_char Chars.tab s = false -> Jpacks.t2j [SqlText s] = Ok s)
  /\ (Py.contains_char Chars.tab s = true ->
      exists f g r,
        Py.split_on Chars.tab s = f :: g :: r
        /\ Jpacks.t2j [SqlText s]
           = Ok (Json.dumps (Sequence (List.map Text (f :: g :: r))))
        /\ (t <- Jpacks.t2j [SqlText s] ;; Jpacks.j2t [SqlText t]) = Ok s).
Proof.
  split; intros H.
  - unfold Jpacks.t2j. cbn [Jpacks.t2j_fields res_bind].
    rewrite (TabFacts.split_on_whole _ _ H). reflexivity.
  - destruct (SplitFacts.split_on_two _ _ H) as (f & g & r & E).
    exists f, g, r. split; [exact E|].
    assert (Ht : Jpacks.t2j [SqlText s]
                 = Ok (Json.dumps (Sequence (List.map Text (f :: g :: r))))).
    { unfold Jpacks.t2j. cbn [Jpacks.t2j_fields res_bind].
      rewrite E, app_nil_r. reflexivity. }
    split; [exact Ht|]. rewrite Ht. cbn [res_bind].
    unfold Jpacks.j2t, Jlist.fromj.
    change (List.map Jlist.arg_text
              [SqlText (Json.dumps (Sequence (List.map Text (f :: g :: r))))])
      with [Json.dumps (Sequence (List.map Text (f :: g :: r)))].
    rewrite CodecFacts.decodeFlat_single.
    rewrite (CodecFacts.decode_arg_loads _ _
               (CodecFacts.loads_dumps_scalars _
                  (SplitFacts.texts_scalar (f :: g :: r)))).
    cbn [res_bind]. rewrite app_nil_r.
    pose proof (SplitFacts.split_on_fields Chars.tab s) as Hf.
    rewrite E in Hf. rewrite (SplitFacts.tab_fields_of_texts _ Hf).
    rewrite <- E. rewrite SplitFacts.join_split_on. reflexivity.
Qed.

Lemma X9_t2j_then_j2t_witness :
  (t <- Jpacks.t2j [SqlText (String "a" (String Chars.tab "b"))] ;;
   Jpacks.j2t [SqlText t])
  = Ok (String "a" (String Chars.tab "b")).
Proof.
  destruct (proj2 (X9_t2j_then_j2t (String "a" (String Chars.tab "b")))
              eq_refl) as (f & g & r & _ & _ & H).
  exact H.
Defined.

(** ** [igroup] *)

Module StreamFacts.

(** The [n]-th [next()] gives the [n]-th thing the body yields. *)
Lemma next_at_lookup {I} (n : nat) (g : gen I unit) (x : I) :
  trace g !! n = Some x -> next_at n g = Item x.
Proof.
  revert g. induction n as [|n IH]; intros [l e]; destruct l as [|y l];
    simpl; try discriminate.
  - intros [= ->]. reflexivity.
  - intros H. apply IH. exact H.
Qed.

(** After the last thing yielded, [next()] gives the way the body ends. *)
Lemma next_at_end {I} (g : gen I unit) :
  next_at (length (trace g)) g = (next (Gen [] (ending g))).1.
Proof.
  destruct g as [l e]. induction l as [|y l IH]; [reflexivity|].
  exact IH.
Qed.

End StreamFacts.

Module IgroupFacts.
Import Igroup.

Lemma rows_trace (l : list (list Value)) :
  for_each l (fun r => emit (YieldRow r)) = Gen (List.map YieldRow l) (Ok tt).
Proof. apply (RowFacts.for_each_emit YieldRow). Qed.

Lemma yielded_rows (l : list (list Value)) :
  omap yielded (List.map YieldRow l) = List.map DataRow l.
Proof.
  induction l as [|r l IH]; [reflexivity|].
  simpl. f_equal. exact IH.
Qed.

(** The body of [VTiter], way by way. *)
Lemma VTiter_cases
    (full_parse : list string -> res (list string * gmap string string))
    (module_name : string) (execute : string -> res cursor)
    (parsedArgs : list string) :
  VTiter full_parse module_name execute parsedArgs
  = match full_parse parsedArgs with
    | Raise e => Gen [] (Raise e)
    | Ok p =>
      match p.2 !! "query" with
      | None => Gen [] (Raise (OperatorError (last_component module_name)
                                             "No query argument "))
      | Some q =>
        match execute q with
        | Raise e => Gen [Execute q] (Raise e)
        | Ok c =>
          match getdescription c with
          | Ok d => Gen (Execute q :: YieldDescription d
                         :: List.map YieldRow (rows c)) (rows_end c)
          | Raise StopIteration =>
            Gen [Execute q; Close] (Raise StopIteration)
          | Raise e => Gen [Execute q] (Raise e)
          end
        end
      end
    end.
Proof.
  unfold VTiter. destruct (full_parse parsedArgs) as [p|e]; [|reflexivity].
  unfold gen_bind at 1. cbn [gen_lift ending trace app].
  destruct (p.2 !! "query") as [q|]; [|reflexivity].
  destruct (execute q) as [c|e]; [|reflexivity].
  unfold gen_bind, gen_lift, emit. cbn [ending trace app].
  rewrite rows_trace. cbn [ending trace app].
  destruct (getdescription c) as [d|e]; cbn [ending trace app].
  - rewrite app_nil_r. reflexivity.
  - destruct e; reflexivity.
Qed.

Lemma Close_not_row (l : list (list Value)) : Close ∉ List.map YieldRow l.
Proof.
  intros H. apply list_elem_of_fmap in H as (r & Hr & _). discriminate.
Qed.

End IgroupFacts.

(** X10.  When the arguments hold a query, the query executes and the
    cursor has a description, [igroup] executes that query once, yields
    the description and then the rows of the cursor, each as it is and
    in the cursor's order, and ends as the iteration of the cursor ends;
    it does not close the cursor. *)
Theorem X10_igroup_passes_rows_through
    (full_parse : list string -> res (list string * gmap string string))
    (module_name : string) (execute : string -> res Igroup.cursor)
    (parsedArgs largs : list string) (dictargs : gmap string string)
    (q : string) (c : Igroup.cursor) (d : list (string * string)) :
  full_parse parsedArgs = Ok (largs, dictargs) ->
  dictargs !! "query" = Some q ->
  execute q = Ok c ->
  Igroup.getdescription c = Ok d ->
  let g := Igroup.VTiter full_parse module_name execute parsedArgs in
  g = Gen (Igroup.Execute q :: Igroup.YieldDescription d
           :: List.map Igroup.YieldRow (Igroup.rows c))
          (Igroup.rows_end c)
  /\ Igroup.stream g
     = Gen (Igroup.Description d :: List.map Igroup.DataRow (Igroup.rows c))
           (Igroup.rows_end c)
  /\ next_at 0 (Igroup.stream g) = Item (Igroup.Description d)
  /\ (forall i r, Igroup.rows c !! i = Some r ->
        next_at (S i) (Igroup.stream g) = Item (Igroup.DataRow r))
  /\ next_at (S (length (Igroup.rows c))) (Igroup.stream g)
     = (next (Gen [] (Igroup.rows_end c))).1.
Proof.
  intros Hp Hq He Hd g.
  assert (Hg : g = Gen (Igroup.Execute q :: Igroup.YieldDescription d
                        :: List.map Igroup.YieldRow (Igroup.rows c))
                       (Igroup.rows_end c)).
  { unfold g, Igroup.VTiter. rewrite Hp.
    unfold gen_bind at 1. cbn [gen_lift ending trace app snd].
    rewrite Hq, He.
    unfold gen_bind, gen_lift, emit. cbn [ending trace app].
    rewrite Hd, IgroupFacts.rows_trace. cbn [ending trace app].
    rewrite app_nil_r. reflexivity. }
  assert (Hs : Igroup.stream g
               = Gen (Igroup.Description d
                      :: List.map Igroup.DataRow (Igroup.rows c))
                     (Igroup.rows_end c)).
  { rewrite Hg. unfold Igroup.stream. cbn [trace ending].
    change (omap Igroup.yielded
              (Igroup.Execute q :: Igroup.YieldDescription d
               :: List.map Igroup.YieldRow (Igroup.rows c)))
      with (Igroup.Description d
            :: omap Igroup.yielded
                 (List.map Igroup.YieldRow (Igroup.rows c))).
    rewrite IgroupFacts.yielded_rows. reflexivity. }
  split; [exact Hg|]. split; [exact Hs|]. rewrite Hs.
  split; [reflexivity|]. split.
  - intros i r Hi. apply StreamFacts.next_at_lookup. cbn [trace].
    change ((Igroup.Description d
             :: List.map Igroup.DataRow (Igroup.rows c)) !! S i)
      with (List.map Igroup.DataRow (Igroup.rows c) !! i).
    rewrite DictFacts.map_is_fmap, list_lookup_fmap, Hi. reflexivity.
  - pose proof (StreamFacts.next_at_end
                  (Gen (Igroup.Description d
                        :: List.map Igroup.DataRow (Igroup.rows c))
                       (Igroup.rows_end c))) as H.
    cbn [trace ending length] in H. rewrite List.length_map in H.
    exact H.
Qed.

Lemma X10_igroup_passes_rows_through_witness :
  Igroup.stream
    (Igroup.VTiter (fun a => Ok ([], {["query" := "select 1"]}))
       "functions.vtable.igroup"
       (fun _ => Ok (Igroup.Cursor (Ok [("a", "int")])
                       [[Integer 1]; [Integer 2]] (Ok tt)))
       ["query:select 1"])
  = Gen [Igroup.Description [("a", "int")];
         Igroup.DataRow [Integer 1]; Igroup.DataRow [Integer 2]] (Ok tt).
Proof.
  refine (proj1 (proj2 (X10_igroup_passes_rows_through
            (fun a => Ok ([], {["query" := "select 1"]}))
            "functions.vtable.igroup"
            (fun _ => Ok (Igroup.Cursor (Ok [("a", "int")])
                            [[Integer 1]; [Integer 2]] (Ok tt)))
            ["query:select 1"] [] {["query" := "select 1"]}
            "select 1"
            (Igroup.Cursor (Ok [("a", "int")])
               [[Integer 1]; [Integer 2]] (Ok tt))
            [("a", "int")] eq_refl _ eq_refl eq_refl))).
  vm_compute. reflexivity.
Defined.

(** X11.  The body of [VTiter] closes the cursor in one case only: the
    query executed and [getdescription] raised [StopIteration].  It then
    has yielded nothing, and the consumer sees the end of the stream,
    not an error.  When [getdescription] raises anything else, or the
    iteration of the rows fails, the cursor is not closed. *)
Theorem X11_igroup_closes_on_StopIteration_only
    (full_parse : list string -> res (list string * gmap string string))
    (module_name : string) (execute : string -> res Igroup.cursor)
    (parsedArgs : list string) :
  let g := Igroup.VTiter full_parse module_name execute parsedArgs in
  (Igroup.Close ∈ trace g <->
   exists largs dictargs q c,
     full_parse parsedArgs = Ok (largs, dictargs)
     /\ dictargs !! "query" = Some q
     /\ execute q = Ok c
     /\ Igroup.getdescription c = Raise StopIteration)
  /\ (Igroup.Close ∈ trace g ->
      exists q, g = Gen [Igroup.Execute q; Igroup.Close] (Raise StopIteration)
        /\ next (Igroup.stream g) = (EndOfStream, Gen [] (Ok tt))).
Proof.
  intros g. unfold g. rewrite IgroupFacts.VTiter_cases.
  destruct (full_parse parsedArgs) as [[largs dictargs]|e0] eqn:Hp.
  2:{ split; [split|]; [inversion 1 | | inversion 1].
      intros (? & ? & ? & ? & [=] & _). }
  cbn [snd]. destruct (dictargs !! "query") as [q|] eqn:Hq.
  2:{ split; [split|]; [inversion 1 | | inversion 1].
      intros (? & ? & ? & ? & [= <- <-] & Hq' & _). congruence. }
  assert (Hone : Igroup.Close ∉ [Igroup.Execute q]).
  { intros H. apply list_elem_of_singleton in H. discriminate. }
  destruct (execute q) as [c|e1] eqn:He.
  2:{ split; [split|]; [intros H; destruct (Hone H) | |
                        intros H; destruct (Hone H)].
      intros (? & ? & q' & ? & [= <- <-] & Hq' & He' & _). congruence. }
  assert (Hno : Igroup.getdescription c <> Raise StopIteration ->
          ¬ exists (largs0 : list string) (dictargs0 : gmap string string)
              (q0 : string) (c0 : Igroup.cursor),
              Ok (largs, dictargs) = Ok (largs0, dictargs0)
              /\ dictargs0 !! "query" = Some q0
              /\ execute q0 = Ok c0
              /\ Igroup.getdescription c0 = Raise StopIteration).
  { intros Hn (? & ? & q' & c' & [= <- <-] & Hq' & He' & Hd').
    apply Hn. congruence. }
  destruct (Igroup.getdescription c) as [d|e2] eqn:Hd.
  - assert (Hc : Igroup.Close
                 ∉ Igroup.Execute q :: Igroup.YieldDescription d
                   :: List.map Igroup.YieldRow (Igroup.rows c)).
    { intros H. apply elem_of_cons in H as [H|H]; [discriminate|].
      apply elem_of_cons in H as [H|H]; [discriminate|].
      destruct (IgroupFacts.Close_not_row _ H). }
    split; [split|]; cbn [trace]; intros H;
      [destruct (Hc H) | destruct (Hno ltac:(discriminate) H)
       | destruct (Hc H)].
  - destruct e2;
      try (split; [split|]; cbn [trace]; intros H;
           [ destruct (Hone H) | destruct (Hno ltac:(discriminate) H)
           | destruct (Hone H) ]).
    split; [split|]; cbn [trace].
    + intros _. exists largs, dictargs, q, c. auto.
    + intros _. apply elem_of_cons. right. apply elem_of_cons. by left.
    + intros _. exists q. split; reflexivity.
Qed.

Lemma X11_igroup_closes_on_StopIteration_only_witness :
  exists q,
    Igroup.VTiter (fun a => Ok ([], {["query" := "select 1"]}))
      "functions.vtable.igroup"
      (fun _ => Ok (Igroup.Cursor (Raise StopIteration) [] (Ok tt)))
      ["query:select 1"]
    = Gen [Igroup.Execute q; Igroup.Close] (Raise StopIteration).
Proof.
  destruct (proj2 (X11_igroup_closes_on_StopIteration_only
              (fun a => Ok ([], {["query" := "select 1"]}))
              "functions.vtable.igroup"
              (fun _ => Ok (Igroup.Cursor (Raise StopIteration) [] (Ok tt)))
              ["query:select 1"])) as (q & Hg & _).
  - vm_compute. apply elem_of_cons. right. apply elem_of_cons. by left.
  - exists q. exact Hg.
Defined.

(** X12.  [igroup] executes nothing but the query of its arguments, at
    most once, and before it yields anything: what the body does is
    either nothing, or the execution of that query followed by no other
    execution.  An error of the parsing of the arguments or of the
    execution is the error of the stream, which then yields nothing. *)
Theorem X12_igroup_executes_the_query_once
    (full_parse : list string -> res (list string * gmap string string))
    (module_name : string) (execute : string -> res Igroup.cursor)
    (parsedArgs : list string) :
  let g := Igroup.VTiter full_parse module_name execute parsedArgs in
  (trace g = []
   \/ exists largs dictargs q rest,
        full_parse parsedArgs = Ok (largs, dictargs)
        /\ dictargs !! "query" = Some q
        /\ trace g = Igroup.Execute q :: rest
        /\ forall q', Igroup.Execute q' ∉ rest)
  /\ (forall e, full_parse parsedArgs = Raise e ->
        Igroup.stream g = Gen [] (Raise e))
  /\ (forall largs dictargs q e,
        full_parse parsedArgs = Ok (largs, dictargs) ->
        dictargs !! "query" = Some q ->
        execute q = Raise e ->
        g = Gen [Igroup.Execute q] (Raise e)
        /\ Igroup.stream g = Gen [] (Raise e)).
Proof.
  intros g. unfold g. rewrite IgroupFacts.VTiter_cases.
  split; [|split].
  - destruct (full_parse parsedArgs) as [[largs dictargs]|e0]; [|by left].
    cbn [snd]. destruct (dictargs !! "query") as [q|] eqn:Hq; [|by left].
    right. exists largs, dictargs, q.
    assert (Hnil : forall q', Igroup.Execute q' ∉ @nil Igroup.event)
      by (intros q' H; inversion H).
    destruct (execute q) as [c|e1].
    + destruct (Igroup.getdescription c) as [d|e2].
      * eexists. split; [reflexivity|]. split; [exact Hq|].
        split; [reflexivity|]. intros q' H.
        apply elem_of_cons in H as [H|H]; [discriminate|].
        apply list_elem_of_fmap in H as (r & Hr & _). discriminate.
      * destruct e2; eexists; (split; [reflexivity|]);
          (split; [exact Hq|]); (split; [reflexivity|]);
          try exact Hnil.
        intros q' H. apply list_elem_of_singleton in H. discriminate.
    + eexists. split; [reflexivity|]. split; [exact Hq|].
      split; [reflexivity|]. exact Hnil.
  - intros e ->. reflexivity.
  - intros largs dictargs q e -> Hq He. cbn [snd]. rewrite Hq, He.
    split; reflexivity.
Qed.

Lemma X12_igroup_executes_the_query_once_witness :
  Igroup.VTiter (fun a => Ok ([], {["query" := "select 1"]}))
    "functions.vtable.igroup" (fun _ => Raise ValueError) ["query:select 1"]
  = Gen [Igroup.Execute "select 1"] (Raise ValueError).
Proof.
  refine (proj1 (proj2 (proj2 (X12_igroup_executes_the_query_once
            (fun a => Ok ([], {["query" := "select 1"]}))
            "functions.vtable.igroup" (fun _ => Raise ValueError)
            ["query:select 1"])) [] {["query" := "select 1"]}
            "select 1" ValueError eq_refl _ eq_refl)).
  vm_compute. reflexivity.
Defined.

(** ** [mexec] *)

Module MexecFacts.
Import Chars Mexec.

(** [readline] cuts the text in two. *)
Lemma readline_split (s l rest : string) :
  readline s = (l, rest) -> s = l +:+ rest.
Proof.
  revert l rest. induction s as [|c s IH]; simpl; intros l rest.
  - intros [= <- <-]. reflexivity.
  - destruct (Ascii.eqb c newline).
    + intros [= <- <-]. reflexivity.
    + destruct (readline s) as [l' rest']. intros [= <- <-].
      rewrite TextFacts.append_cons, <- (IH l' rest' eq_refl). reflexivity.
Qed.

(** It gives the empty text at the end of the file only. *)
Lemma readline_end (s l rest : string) :
  readline s = (l, rest) -> l = "" -> s = "" /\ rest = "".
Proof.
  destruct s as [|c s]; simpl.
  - intros [= <- <-]. auto.
  - destruct (Ascii.eqb c newline); [intros [= <- <-]; discriminate|].
    destruct (readline s). intros [= <- <-]. discriminate.
Qed.

Lemma readline_shorter (s l rest : string) :
  readline s = (l, rest) -> l <> "" ->
  String.length rest < String.length s.
Proof.
  intros H Hl. rewrite (readline_split _ _ _ H), TextFacts.length_append.
  destruct l; [congruence | simpl; lia].
Qed.

Lemma eqb_empty (s : string) : String.eqb s "" = true <-> s = "".
Proof. apply String.eqb_eq. Qed.

Lemma eqb_nonempty (s : string) : String.eqb s "" = false <-> s <> "".
Proof. apply String.eqb_neq. Qed.

(** With the empty statement not complete, the loop ends, by
    [sys.exit()]. *)
Lemma loop_exits (DB : Type) (complete : string -> bool)
    (execute : DB -> string -> gen (list Value) unit * DB)
    (str_row : list Value -> string) (str_exn : exn -> string) :
  complete "" = false ->
  forall (fuel : nat) (d : DB) (statement rest : string),
    2 * String.length rest + (if complete statement then 2 else 1) <= fuel ->
    (loop DB complete execute str_row str_exn fuel d statement rest).2 = Exit.
Proof.
  intros Hc. induction fuel as [|n IH]; intros d statement rest Hf.
  - destruct (complete statement); lia.
  - cbn [loop]. destruct (complete statement) eqn:Hs.
    + destruct (execute d statement) as [g d'].
      destruct (ending g) as [u|e]; [|reflexivity].
      specialize (IH d' "" rest). rewrite Hc in IH.
      destruct (loop DB complete execute str_row str_exn n d' "" rest)
        as [ev o]. simpl in *. apply IH. lia.
    + destruct (readline rest) as [l rest'] eqn:Hr.
      destruct (String.eqb l "") eqn:Hl; [reflexivity|].
      apply eqb_nonempty in Hl.
      pose proof (readline_shorter _ _ _ Hr Hl) as Hlt.
      apply IH. destruct (complete (statement +:+ l)); lia.
Qed.

(** What a run does before it ends: it executes and prints. *)
Lemma out_quiet (statement : string) (texts : list string) :
  Forall (fun e => (forall t, e <> Stderr t) /\ e <> CloseFlow)
    (Run statement :: List.map Stdout texts).
Proof.
  constructor; [split; [intros t|]; discriminate|].
  induction texts; constructor; [split; [intros t|]; discriminate|].
  assumption.
Qed.

Lemma rows_out (str_row : list Value -> string) (rows : list (list Value)) :
  List.map (fun row => Stdout (line (str_row row))) rows
  = List.map Stdout (List.map (fun row => line (str_row row)) rows).
Proof. rewrite List.map_map. reflexivity. Qed.

(** The events of the loop: executions and printed rows, and then
    nothing, or the closing of the file, alone or after the message of
    an incomplete statement, or the message of a failed execution. *)
Lemma loop_shape (DB : Type) (complete : string -> bool)
    (execute : DB -> string -> gen (list Value) unit * DB)
    (str_row : list Value -> string) (str_exn : exn -> string)
    (fuel : nat) (d : DB) (statement rest : string) :
  exists quiet fin,
    (loop DB complete execute str_row str_exn fuel d statement rest).1
    = quiet ++ fin
    /\ Forall (fun e => (forall t, e <> Stderr t) /\ e <> CloseFlow) quiet
    /\ (fin = [] \/ fin = [CloseFlow]
        \/ (exists s, fin = [Stderr ("Incomplete query:" +:+ s); CloseFlow])
        \/ (exists s, fin = [Stderr (line ("Error" +:+ s))])).
Proof.
  revert d statement rest.
  induction fuel as [|n IH]; intros d statement rest.
  - exists [], []. simpl. auto.
  - cbn [loop]. destruct (complete statement).
    + destruct (execute d statement) as [g d']. rewrite rows_out.
      destruct (ending g) as [u|e].
      * destruct (IH d' "" rest) as (quiet & fin & Hev & Hq & Hfin).
        destruct (loop DB complete execute str_row str_exn n d' "" rest)
          as [ev o]. simpl in Hev. subst ev.
        eexists (_ ++ quiet), fin. cbn [fst].
        split; [rewrite app_assoc; reflexivity|].
        split; [|exact Hfin].
        apply Forall_app. split; [apply out_quiet | exact Hq].
      * eexists _, [_]. cbn [exitwitherror fst].
        split; [reflexivity|]. split; [apply out_quiet|].
        right. right. right. eexists.
        change "Error when executing query: "
          with ("Error" +:+ " when executing query: ").
        rewrite TextFacts.append_assoc. reflexivity.
    + destruct (readline rest) as [l rest'].
      destruct (String.eqb l ""); [|apply IH].
      exists []. cbn [fst app].
      destruct (String.eqb (rstrip_crlf (statement +:+ l)) "").
      * exists [CloseFlow]. auto.
      * eexists. split; [reflexivity|]. split; [constructor|].
        right. right. left. eexists. reflexivity.
Qed.

Lemma main_shape (DB : Type) (connect : string -> Z -> res DB)
    (open_flow : option string -> option string)
    (complete : string -> bool)
    (execute : DB -> string -> gen (list Value) unit * DB)
    (str_row : list Value -> string) (str_exn : exn -> string)
    (args : list string) (o : options) :
  exists quiet fin,
    (main DB connect open_flow complete execute str_row str_exn args o).1
    = quiet ++ fin
    /\ Forall (fun e => (forall t, e <> Stderr t) /\ e <> CloseFlow) quiet
    /\ (fin = [] \/ fin = [CloseFlow]
        \/ (exists s, fin = [Stderr ("Incomplete query:" +:+ s); CloseFlow])
        \/ (exists s, fin = [Stderr (line ("Error" +:+ s))])).
Proof.
  assert (Hc : forall n f,
             (forall t, Connect n f <> Stderr t) /\ Connect n f <> CloseFlow)
    by (intros n f; split; [intros t|]; discriminate).
  unfold main. destruct (choose_db args o) as [dbname flags].
  destruct (connect dbname flags) as [d|e].
  - destruct (open_flow (flow o)) as [content|].
    + destruct (readline content) as [statement rest].
      destruct (String.eqb statement "").
      * exists [Connect dbname flags], [CloseFlow]. cbn [fst].
        split; [reflexivity|]. split; [|auto].
        constructor; [apply Hc | constructor].
      * destruct (loop_shape DB complete execute str_row str_exn
                    (fuel_for content) d statement rest)
          as (quiet & fin & Hev & Hq & Hfin).
        destruct (loop DB complete execute str_row str_exn
                    (fuel_for content) d statement rest) as [ev out].
        simpl in Hev. subst ev.
        exists (Connect dbname flags :: quiet), fin. cbn [fst].
        split; [reflexivity|]. split; [|exact Hfin].
        constructor; [apply Hc | exact Hq].
    + exists [Connect dbname flags], []. cbn [fst].
      split; [reflexivity|]. split; [|auto].
      constructor; [apply Hc | constructor].
  - exists [Connect dbname flags]. eexists [_]. cbn [exitwitherror fst].
    split; [reflexivity|]. split; [constructor; [apply Hc | constructor]|].
    right. right. right. eexists.
    change "Error in opening DB: " with ("Error" +:+ " in opening DB: ").
    rewrite TextFacts.append_assoc. reflexivity.
Qed.

(** Where an event that is not of the quiet ones sits. *)
Lemma split_quiet {A} (Q : A -> Prop) (quiet fin pre post : list A) (x : A) :
  Forall Q quiet -> ~ Q x -> pre ++ x :: post = quiet ++ fin ->
  exists p, fin = p ++ x :: post.
Proof.
  intros Hq Hx. revert pre. induction Hq as [|q quiet Hq0 _ IH]; intros pre H.
  - exists pre. symmetry. exact H.
  - destruct pre as [|a pre]; simpl in H; injection H as Ha H.
    + subst q. contradiction.
    + apply (IH pre H).
Qed.

(** [main] ends by [sys.exit()], but for the flow file that cannot be
    opened. *)
Lemma main_outcome (DB : Type) (connect : string -> Z -> res DB)
    (open_flow : option string -> option string)
    (complete : string -> bool)
    (execute : DB -> string -> gen (list Value) unit * DB)
    (str_row : list Value -> string) (str_exn : exn -> string)
    (args : list string) (o : options) :
  complete "" = false ->
  let r := main DB connect open_flow complete execute str_row str_exn
             args o in
  (r.2 = Exit /\
   ((exists e, connect (choose_db args o).1 (choose_db args o).2 = Raise e)
    \/ is_Some (open_flow (flow o))))
  \/ (r.2 = UnboundLocal
      /\ r.1 = [Connect (choose_db args o).1 (choose_db args o).2]
      /\ (exists d, connect (choose_db args o).1 (choose_db args o).2 = Ok d)
      /\ open_flow (flow o) = None).
Proof.
  intros Hc. unfold main. destruct (choose_db args o) as [dbname flags].
  cbn [fst snd].
  destruct (connect dbname flags) as [d|e]; [|left; split; eauto].
  destruct (open_flow (flow o)) as [content|]; [|right; cbn; eauto 6].
  left. split; [|right; eauto].
  destruct (readline content) as [statement rest] eqn:Hr.
  destruct (String.eqb statement "") eqn:Hs; [reflexivity|].
  apply eqb_nonempty in Hs.
  pose proof (readline_shorter _ _ _ Hr Hs) as Hlt.
  pose proof (loop_exits DB complete execute str_row str_exn Hc
                (fuel_for content) d statement rest) as He.
  destruct (loop DB complete execute str_row str_exn
              (fuel_for content) d statement rest) as [ev out].
  cbn [snd] in *. apply He. unfold fuel_for.
  destruct (complete statement); lia.
Qed.

End MexecFacts.

(** X13.  The flags with which [mexec] opens the database do not depend
    on the option [-w]: [SQLITE_OPEN_CREATE] is asked for exactly when
    there is no positional argument and no [-d], and
    [SQLITE_OPEN_READWRITE] always.  The name is that of [-w], else that
    of [-d], else the first positional argument, else the empty name. *)
Theorem X13_mexec_flags_ignore_dbw (args : list string) (o : Mexec.options) :
  (forall w, (Mexec.choose_db args
                (Mexec.Options (Mexec.flow o) (Mexec.db o) w)).2
             = (Mexec.choose_db args o).2)
  /\ (Z.land (Mexec.choose_db args o).2 Mexec.SQLITE_OPEN_CREATE
      = Mexec.SQLITE_OPEN_CREATE
      <-> args = [] /\ Mexec.db o = None)
  /\ Z.land (Mexec.choose_db args o).2 Mexec.SQLITE_OPEN_READWRITE
     = Mexec.SQLITE_OPEN_READWRITE
  /\ (Mexec.choose_db args o).1
     = default (default (List.hd "" args) (Mexec.db o)) (Mexec.dbw o).
Proof.
  destruct o as [f d w]. unfold Mexec.choose_db. cbn [Mexec.db Mexec.dbw].
  destruct args as [|a args], d as [n|], w as [m|]; cbn;
    repeat split; try reflexivity; try discriminate;
    try (intros [H1 H2]; discriminate);
    try (intros w'; destruct w'; reflexivity).
Qed.

Lemma X13_mexec_flags_ignore_dbw_witness :
  (Mexec.choose_db ["a.db"] (Mexec.Options None None (Some "w.db")))
  = ("w.db", Mexec.SQLITE_OPEN_READWRITE)
  /\ Z.land (Mexec.choose_db ["a.db"]
               (Mexec.Options None None (Some "w.db"))).2
            Mexec.SQLITE_OPEN_CREATE
     <> Mexec.SQLITE_OPEN_CREATE.
Proof.
  pose proof (X13_mexec_flags_ignore_dbw ["a.db"]
                (Mexec.Options None None (Some "w.db")))
    as (_ & Hc & _ & Hn).
  split.
  - reflexivity.
  - intros H. apply Hc in H as [H _]. discriminate.
Defined.

(** X14.  With the empty statement not complete, [mexec] ends by
    [sys.exit()], status 0, also when the database cannot be opened or
    a statement fails.  The one other end is the flow file that cannot
    be opened: the handler closes a file that was never bound and dies
    of it, after the database has been opened and before anything is
    written.  The message [Flow file does not exist] is never
    written. *)
Theorem X14_mexec_ends (DB : Type) (connect : string -> Z -> res DB)
    (open_flow : option string -> option string)
    (complete : string -> bool)
    (execute : DB -> string -> gen (list Value) unit * DB)
    (str_row : list Value -> string) (str_exn : exn -> string)
    (args : list string) (o : Mexec.options) :
  complete "" = false ->
  let r := Mexec.main DB connect open_flow complete execute str_row str_exn
             args o in
  let dbname := (Mexec.choose_db args o).1 in
  let flags := (Mexec.choose_db args o).2 in
  (r.2 = Mexec.Exit \/ r.2 = Mexec.UnboundLocal)
  /\ (r.2 = Mexec.UnboundLocal <->
      (exists d, connect dbname flags = Ok d) /\ open_flow (Mexec.flow o) = None)
  /\ (r.2 = Mexec.UnboundLocal -> r.1 = [Mexec.Connect dbname flags])
  /\ (forall t, Mexec.Stderr t ∈ r.1 ->
        t <> Mexec.line "Flow file does not exist").
Proof.
  intros Hc r dbname flags.
  pose proof (MexecFacts.main_outcome DB connect open_flow complete execute
                str_row str_exn args o Hc) as H.
  fold r dbname flags in H. cbv zeta in H.
  split; [|split; [|split]].
  - destruct H as [[H _]|[H _]]; auto.
  - split.
    + intros Hu. destruct H as [[H _]|(_ & _ & H1 & H2)]; [congruence|auto].
    + intros [[d Hd] Ho].
      destruct H as [[_ [[e He]|[c Hs]]]|[H _]]; [congruence..|exact H].
  - intros Hu. destruct H as [[H _]|(_ & H & _)]; [congruence|exact H].
  - intros t Ht. unfold r in Ht.
    destruct (MexecFacts.main_shape DB connect open_flow complete execute
                str_row str_exn args o) as (quiet & fin & Hev & Hq & Hfin).
    rewrite Hev in Ht. apply elem_of_app in Ht as [Ht|Ht].
    + rewrite Forall_forall in Hq. destruct (Hq _ Ht) as [Hn _].
      destruct (Hn t eq_refl).
    + destruct Hfin as [->|[->|[[s ->]|[s ->]]]].
      * inversion Ht.
      * apply list_elem_of_singleton in Ht. discriminate.
      * apply elem_of_cons in Ht as [[= ->]|Ht]; [discriminate|].
        apply list_elem_of_singleton in Ht. discriminate.
      * apply list_elem_of_singleton in Ht. injection Ht as ->.
        discriminate.
Qed.

Lemma X14_mexec_ends_witness :
  (Mexec.main unit (fun _ _ => Ok tt) (fun _ => None)
     (fun s => negb (String.eqb s ""))
     (fun d _ => (Gen [] (Ok tt), d)) (fun _ => "") (fun _ => "")
     ["a.db"] (Mexec.Options (Some "missing.sql") None None)).2
  = Mexec.UnboundLocal.
Proof.
  apply (proj1 (proj2 (X14_mexec_ends unit (fun _ _ => Ok tt) (fun _ => None)
     (fun s => negb (String.eqb s ""))
     (fun d _ => (Gen [] (Ok tt), d)) (fun _ => "") (fun _ => "")
     ["a.db"] (Mexec.Options (Some "missing.sql") None None) eq_refl))).
  split; [exists tt|]; reflexivity.
Defined.

(** X16.  Once [mexec] has written to [sys.stderr] it executes and
    writes nothing more: the message is the last thing it does, or, for
    the message of an incomplete statement only, the last but the
    closing of the flow file.  The closing of the flow file is always
    the last thing done, so after an error of the database or of a
    statement the file is left open. *)
Theorem X16_mexec_stops_at_the_first_error
    (DB : Type) (connect : string -> Z -> res DB)
    (open_flow : option string -> option string)
    (complete : string -> bool)
    (execute : DB -> string -> gen (list Value) unit * DB)
    (str_row : list Value -> string) (str_exn : exn -> string)
    (args : list string) (o : Mexec.options)
    (pre post : list Mexec.event) :
  let r := Mexec.main DB connect open_flow complete execute str_row str_exn
             args o in
  (forall t, r.1 = pre ++ Mexec.Stderr t :: post ->
     post = []
     \/ (post = [Mexec.CloseFlow] /\ exists s, t = "Incomplete query:" +:+ s))
  /\ (r.1 = pre ++ Mexec.CloseFlow :: post -> post = []).
Proof.
  intros r. unfold r.
  destruct (MexecFacts.main_shape DB connect open_flow complete execute
              str_row str_exn args o) as (quiet & fin & Hev & Hq & Hfin).
  rewrite Hev. split.
  - intros t H.
    destruct (MexecFacts.split_quiet _ quiet fin pre post (Mexec.Stderr t) Hq)
      as [p Hp]; [intros [Hn _]; exact (Hn t eq_refl) | symmetry; exact H |].
    destruct Hfin as [->|[->|[[s ->]|[s ->]]]];
      destruct p as [|a [|b [|c p]]]; simpl in Hp; simplify_eq; eauto.
  - intros H.
    destruct (MexecFacts.split_quiet _ quiet fin pre post Mexec.CloseFlow Hq)
      as [p Hp]; [intros [_ Hn]; exact (Hn eq_refl) | symmetry; exact H |].
    destruct Hfin as [->|[->|[[s ->]|[s ->]]]];
      destruct p as [|a [|b [|c p]]]; simpl in Hp; simplify_eq; eauto.
Qed.

Lemma X16_mexec_stops_at_the_first_error_witness :
  (Mexec.main unit (fun _ _ => Ok tt) (fun _ => Some "abc")
     (fun _ => false) (fun d _ => (Gen [] (Ok tt), d))
     (fun _ => "") (fun _ => "")
     ["a.db"] (Mexec.Options (Some "flow.sql") None None)).1
  = [Mexec.Connect "a.db" 2] ++ Mexec.Stderr "Incomplete query:abc"
    :: [Mexec.CloseFlow]
  /\ exists s, "Incomplete query:abc" = "Incomplete query:" +:+ s.
Proof.
  split; [reflexivity|].
  destruct (proj1 (X16_mexec_stops_at_the_first_error unit
     (fun _ _ => Ok tt) (fun _ => Some "abc")
     (fun _ => false) (fun d _ => (Gen [] (Ok tt), d))
     (fun _ => "") (fun _ => "")
     ["a.db"] (Mexec.Options (Some "flow.sql") None None)
     [Mexec.Connect "a.db" 2] [Mexec.CloseFlow])
     "Incomplete query:abc" eq_refl) as [H|[_ H]].
  - discriminate.
  - exact H.
Defined.

Module FlowFacts.
Import Chars Mexec.

Lemma statements_out (str_row : list Value -> string) (statement : string)
    (rows : list (list Value)) (ev : list event) :
  statements ((Run statement
               :: List.map (fun row => Stdout (line (str_row row))) rows)
              ++ ev)
  = statement :: statements ev.
Proof.
  unfold statements. cbn [app omap list_omap]. f_equal.
  induction rows as [|row rows IH]; [reflexivity|]. exact IH.
Qed.

Lemma errors_out (str_row : list Value -> string) (statement : string)
    (rows : list (list Value)) (ev : list event) :
  errors ((Run statement
           :: List.map (fun row => Stdout (line (str_row row))) rows)
          ++ ev)
  = errors ev.
Proof.
  unfold errors. cbn [app omap list_omap].
  induction rows as [|row rows IH]; [reflexivity|]. exact IH.
Qed.

(** What the loop executes is complete, and is what it was given and
    what the file held from there on, piece after piece. *)
Lemma loop_pieces (DB : Type) (complete : string -> bool)
    (execute : DB -> string -> gen (list Value) unit * DB)
    (str_row : list Value -> string) (str_exn : exn -> string)
    (fuel : nat) (d : DB) (statement rest : string) :
  let r := loop DB complete execute str_row str_exn fuel d statement rest in
  (forall s, s ∈ statements r.1 -> complete s = true)
  /\ exists tail,
       statement +:+ rest = foldr String.append "" (statements r.1) +:+ tail
       /\ (r.2 = Exit -> errors r.1 = [] -> rstrip_crlf tail = "").
Proof.
  revert d statement rest.
  induction fuel as [|n IH]; intros d statement rest.
  - cbn. split; [intros s H; inversion H|].
    exists (statement +:+ rest). split; [reflexivity | discriminate].
  - cbn [loop]. destruct (complete statement) eqn:Hs.
    + destruct (execute d statement) as [g d'].
      destruct (ending g) as [u|e].
      * specialize (IH d' "" rest). cbv zeta in IH.
        destruct (loop DB complete execute str_row str_exn n d' "" rest)
          as [ev o]. cbn [fst snd] in *.
        destruct IH as (Hall & tail & Heq & Htail).
        rewrite statements_out, errors_out. split.
        -- intros s H. apply elem_of_cons in H as [->|H]; auto.
        -- exists tail. split; [|exact Htail].
           cbn [foldr]. rewrite TextFacts.append_assoc, <- Heq.
           reflexivity.
      * cbn [exitwitherror fst snd].
        rewrite statements_out, errors_out. split.
        -- intros s H. apply list_elem_of_singleton in H as ->. exact Hs.
        -- exists rest. split; [|discriminate].
           cbn. rewrite TextFacts.append_nil_r. reflexivity.
    + destruct (readline rest) as [l rest'] eqn:Hr.
      destruct (String.eqb l "") eqn:Hl.
      * apply MexecFacts.eqb_empty in Hl.
        destruct (MexecFacts.readline_end _ _ _ Hr Hl) as [-> ->]. subst l.
        destruct (String.eqb (rstrip_crlf (statement +:+ "")) "") eqn:Ht;
          cbn [fst snd app]; (split; [intros s H; inversion H|]);
          exists (statement +:+ ""); (split; [reflexivity|]).
        -- intros _ _. apply MexecFacts.eqb_empty. exact Ht.
        -- discriminate.
      * specialize (IH d (statement +:+ l) rest'). cbv zeta in IH.
        destruct IH as (Hall & tail & Heq & Htail).
        split; [exact Hall|]. exists tail. split; [|exact Htail].
        rewrite <- Heq, TextFacts.append_assoc,
          (MexecFacts.readline_split _ _ _ Hr).
        reflexivity.
Qed.

End FlowFacts.

(** X15.  The statements that [mexec] executes are complete, by
    [apsw.complete], and are consecutive pieces of the text of the flow
    file from its start, in the order of the file: nothing is skipped,
    reordered or executed twice.  When the run ends with nothing written
    to [sys.stderr], all the text has been executed but for line ends
    after the last statement. *)
Theorem X15_mexec_runs_the_flow_in_order
    (DB : Type) (connect : string -> Z -> res DB)
    (open_flow : option string -> option string)
    (complete : string -> bool)
    (execute : DB -> string -> gen (list Value) unit * DB)
    (str_row : list Value -> string) (str_exn : exn -> string)
    (args : list string) (o : Mexec.options) (content : string) :
  open_flow (Mexec.flow o) = Some content ->
  let r := Mexec.main DB connect open_flow complete execute str_row str_exn
             args o in
  (forall s, s ∈ Mexec.statements r.1 -> complete s = true)
  /\ exists tail,
       content = foldr String.append "" (Mexec.statements r.1) +:+ tail
       /\ (r.2 = Mexec.Exit -> Mexec.errors r.1 = [] ->
           Mexec.rstrip_crlf tail = "").
Proof.
  intros Ho r. unfold r, Mexec.main.
  destruct (Mexec.choose_db args o) as [dbname flags].
  destruct (connect dbname flags) as [d|e].
  - rewrite Ho. destruct (Mexec.readline content) as [statement rest] eqn:Hr.
    destruct (String.eqb statement "") eqn:Hs.
    + apply MexecFacts.eqb_empty in Hs.
      destruct (MexecFacts.readline_end _ _ _ Hr Hs) as [-> _].
      cbn. split; [intros s H; inversion H|].
      exists "". auto.
    + pose proof (FlowFacts.loop_pieces DB complete execute str_row str_exn
                    (Mexec.fuel_for content) d statement rest) as H.
      cbv zeta in H.
      destruct (Mexec.loop DB complete execute str_row str_exn
                  (Mexec.fuel_for content) d statement rest) as [ev out].
      cbn [fst snd] in *.
      change (Mexec.statements (Mexec.Connect dbname flags :: ev))
        with (Mexec.statements ev).
      change (Mexec.errors (Mexec.Connect dbname flags :: ev))
        with (Mexec.errors ev).
      rewrite (MexecFacts.readline_split _ _ _ Hr). exact H.
  - cbn. split; [intros s H; inversion H|].
    exists content. split; [reflexivity | discriminate].
Qed.

Lemma X15_mexec_runs_the_flow_in_order_witness :
  exists tail,
    "a;" = foldr String.append ""
             (Mexec.statements
                (Mexec.main unit (fun _ _ => Ok tt) (fun _ => Some "a;")
                   (String.eqb "a;") (fun d _ => (Gen [] (Ok tt), d))
                   (fun _ => "") (fun _ => "")
                   ["a.db"] (Mexec.Options (Some "flow.sql") None None)).1)
           +:+ tail
    /\ Mexec.rstrip_crlf tail = "".
Proof.
  destruct (X15_mexec_runs_the_flow_in_order unit
              (fun _ _ => Ok tt) (fun _ => Some "a;")
              (String.eqb "a;") (fun d _ => (Gen [] (Ok tt), d))
              (fun _ => "") (fun _ => "")
              ["a.db"] (Mexec.Options (Some "flow.sql") None None)
              "a;" eq_refl) as (_ & tail & Heq & Ht).
  exists tail. split; [exact Heq|]. apply Ht; reflexivity.
Defined.

(** ** The errors of [jdictkeys] *)

Module KeysErrorFacts.
Import Jpacks.

(** The loop over several arguments stops at the first argument that
    raises. *)
Lemma collect_raise (texts : list string) (a : sqlval) (post : list sqlval)
    (e : exn) :
  Forall acceptable texts ->
  jdictkeys_collect (a :: post) = Raise e ->
  jdictkeys_collect (List.map SqlText texts ++ a :: post) = Raise e.
Proof.
  intros Hall Ha. induction Hall as [|t texts Ht _ IH]; [exact Ha|].
  destruct (KeysFacts.keys_of_text t Ht) as (ks & Hks & _).
  cbn [List.map app jdictkeys_collect].
  unfold res_bind in Hks |- *.
  destruct (object_shaped t) as [b|e']; [|discriminate].
  destruct (if b then _ else _) as [ks'|e']; [|discriminate].
  rewrite IH. reflexivity.
Qed.

(** With two arguments or more, [jdictkeys] goes through that loop. *)
Lemma jdictkeys_several (a b : sqlval) (r : list sqlval) :
  jdictkeys (a :: b :: r)
  = (keys <- (ks <- jdictkeys_collect (a :: b :: r) ;;
              Ok (elements (list_to_set ks : gset string))) ;;
     Ok (Jlist.toj (Sequence (List.map Text keys)))).
Proof. destruct a; reflexivity. Qed.

Lemma several_raise (texts : list string) (a : sqlval) (post : list sqlval)
    (e : exn) :
  Forall acceptable texts ->
  jdictkeys_collect (a :: post) = Raise e ->
  texts <> [] \/ post <> [] ->
  jdictkeys (List.map SqlText texts ++ a :: post) = Raise e.
Proof.
  intros Hall Ha Hlen.
  pose proof (collect_raise texts a post e Hall Ha) as Hc.
  destruct texts as [|t1 texts].
  - destruct post as [|p post]; [destruct Hlen; congruence|].
    cbn [List.map app] in *. rewrite jdictkeys_several, Hc. reflexivity.
  - destruct texts as [|t2 texts];
      cbn [List.map app] in *; rewrite jdictkeys_several, Hc; reflexivity.
Qed.

End KeysErrorFacts.

(** X17.  [jdictkeys] of no argument is the empty pack.  Of several
    arguments, when the texts before an argument are accepted, that
    argument decides the error: [IndexError] for an empty text,
    [ValueError] for a text in braces in which something else than
    white space, a key or the closing brace follows the opening brace,
    as in [{k1}], and [TypeError] for a number, which alone as the one
    argument gives the empty pack. *)
Theorem X17_jdictkeys_first_bad_argument (texts : list string)
    (a : sqlval) (post : list sqlval) :
  Forall Jpacks.acceptable texts ->
  let args := List.map SqlText texts ++ a :: post in
  (a = SqlText "" -> Jpacks.jdictkeys args = Raise IndexError)
  /\ (forall c body,
        a = SqlText (String "{" (String c body +:+ "}")) ->
        Json.starts_no_member c = true ->
        Jpacks.jdictkeys args = Raise ValueError)
  /\ ((forall t, a <> SqlText t) -> texts <> [] \/ post <> [] ->
      Jpacks.jdictkeys args = Raise TypeError)
  /\ ((forall t, a <> SqlText t) ->
      Jpacks.jdictkeys [a] = Ok (Jlist.encode []))
  /\ Jpacks.jdictkeys [] = Ok (Jlist.encode []).
Proof.
  intros Hall args. unfold args.
  assert (Hone : forall e,
            Jpacks.jdictkeys_collect (a :: post) = Raise e ->
            Jpacks.jdictkeys [a] = Raise e ->
            Jpacks.jdictkeys (List.map SqlText texts ++ a :: post)
            = Raise e).
  { intros e Hc H1.
    destruct texts as [|t1 texts']; [destruct post as [|p post']|].
    - exact H1.
    - apply (KeysErrorFacts.several_raise [] a (p :: post') e);
        [constructor | exact Hc | right; discriminate].
    - apply KeysErrorFacts.several_raise;
        [exact Hall | exact Hc | left; discriminate]. }
  repeat apply conj.
  - intros ->. apply Hone; reflexivity.
  - intros c body -> Hc.
    assert (Hs : Jpacks.object_shaped (String "{" (String c body +:+ "}"))
                 = Ok true)
      by (apply DictRowFacts.object_shaped_iff; eauto).
    assert (Hl : Json.loads_object (String "{" (String c body +:+ "}"))
                 = None).
    { rewrite TextFacts.append_cons.
      apply (RefusalFacts.no_member c (body +:+ "}") Hc). }
    apply Hone.
    + cbn [Jpacks.jdictkeys_collect]. unfold Jpacks.loads_dict.
      rewrite Hs, Hl. reflexivity.
    + unfold Jpacks.jdictkeys, Jpacks.loads_dict. rewrite Hs, Hl.
      reflexivity.
  - intros Hn Hlen. apply KeysErrorFacts.several_raise; try assumption.
    destruct a; try reflexivity. destruct (Hn _ eq_refl).
  - intros Hn. destruct a; try reflexivity. destruct (Hn _ eq_refl).
  - reflexivity.
Qed.

Lemma X17_jdictkeys_first_bad_argument_witness :
  Jpacks.jdictkeys
    (List.map SqlText [Json.dumps_object [("k1", Integer 1)]]
     ++ SqlInt 1 :: [])
  = Raise TypeError.
Proof.
  apply (X17_jdictkeys_first_bad_argument
           [Json.dumps_object [("k1", Integer 1)]] (SqlInt 1) []).
  - constructor; [|constructor]. split; [discriminate|].
    intros _. vm_compute. eauto.
  - intros t. discriminate.
  - left. discriminate.
Defined.

(** * The framing of the streams *)

Module FramingFacts.
Import Jpacks.

(** A body that yields the schema and then the rows is framed, however
    it ends. *)
Lemma framed {I} (schema : I) (rows : list I) (e : res unit) :
  schema_then_rows (Gen (schema :: rows) e) schema rows.
Proof.
  split; [reflexivity|]. split; [reflexivity|]. split.
  - intros i r H. apply StreamFacts.next_at_lookup. exact H.
  - apply GenFacts.no_item_after_end. intros i.
    pose proof (StreamFacts.next_at_end (Gen (schema :: rows) e)) as H.
    cbn [trace ending length] in H. rewrite H.
    apply (proj1 (GenFacts.next_empty (Gen [] e) eq_refl)).
Qed.

Lemma jsplitv_stream (args : list sqlval) (l : list Value) :
  Jlist.fromj args = Ok l ->
  jsplitv args
  = Gen (PyTuple [Text "C1"]
         :: List.map (fun x => PyList [Text (Jlist.toj x)]) l) (Ok tt).
Proof.
  intros H. unfold jsplitv. rewrite H.
  unfold gen_bind at 2. cbn [gen_lift ending trace app].
  rewrite (RowFacts.for_each_emit (fun x => PyList [Text (Jlist.toj x)]) l).
  reflexivity.
Qed.

Lemma jdictsplit_all (t : string) (members : list (string * Value)) :
  Json.loads_object t = Some members ->
  jdictsplit [SqlText t]
  = Gen [PyTuple (List.map Text
                    (Py.sorted Py.item_leb (items (dict_of members))).*1);
         PyList (Py.sorted Py.item_leb (items (dict_of members))).*2]
        (Ok tt).
Proof.
  intros H. unfold jdictsplit, loads_doc. rewrite H. reflexivity.
Qed.

Lemma jdictsplit_selected (t : string) (members : list (string * Value))
    (k : sqlval) (keys : list sqlval) :
  Json.loads_object t = Some members ->
  jdictsplit (SqlText t :: k :: keys)
  = Gen [PyTuple (List.map val_of_arg (k :: keys));
         PyList (List.map (dict_get (dict_of members)) (k :: keys))]
        (Ok tt).
Proof.
  intros H. unfold jdictsplit, loads_doc. rewrite H. reflexivity.
Qed.

Lemma igroup_stream
    (full_parse : list string -> res (list string * gmap string string))
    (module_name : string) (execute : string -> res Igroup.cursor)
    (parsedArgs largs : list string) (dictargs : gmap string string)
    (q : string) (c : Igroup.cursor) (d : list (string * string)) :
  full_parse parsedArgs = Ok (largs, dictargs) ->
  dictargs !! "query" = Some q ->
  execute q = Ok c ->
  Igroup.getdescription c = Ok d ->
  Igroup.stream (Igroup.VTiter full_parse module_name execute parsedArgs)
  = Gen (Igroup.Description d :: List.map Igroup.DataRow (Igroup.rows c))
        (Igroup.rows_end c).
Proof.
  intros Hp Hq He Hd. rewrite IgroupFacts.VTiter_cases, Hp.
  cbn [snd]. rewrite Hq, He, Hd. unfold Igroup.stream. cbn [trace ending].
  change (omap Igroup.yielded
            (Igroup.Execute q :: Igroup.YieldDescription d
             :: List.map Igroup.YieldRow (Igroup.rows c)))
    with (Igroup.Description d
          :: omap Igroup.yielded (List.map Igroup.YieldRow (Igroup.rows c))).
  rewrite IgroupFacts.yielded_rows. reflexivity.
Qed.

End FramingFacts.

(** C3.  Each of the four producers yields its schema first and then its
    data rows, and gives no row after them.  When the arguments decode
    to [l], [jsplitv] yields the tuple [('C1',)] and one row for each
    element of [l]; when they decode to [n >= 1] elements, [jsplit]
    yields the tuple of the names [C1 .. Cn] and one row.  On the text of
    an object [jdictsplit] yields the tuple of the keys, the object's
    own or the ones asked for, and one row.  When the query executes and
    its cursor has a description, [igroup] yields the description and
    then the rows of the cursor.  On any arguments whatever, also those
    on which the producer fails, the first item the consumer gets, if it
    gets one, is that schema and never a data row: for [jsplit] on the
    empty sequence it is [('C1',)]. *)
Theorem C3_schema_first :
  (forall args l, Jlist.fromj args = Ok l ->
     schema_then_rows (Jpacks.jsplitv args) (Jpacks.PyTuple [Text "C1"])
       (List.map (fun x => Jpacks.PyList [Text (Jlist.toj x)]) l))
  /\ (forall args x l, Jlist.fromj args = Ok (x :: l) ->
        schema_then_rows (Jpacks.jsplit args)
          (Jpacks.PyTuple (Jpacks.column_names (S (length l))))
          [Jpacks.PyList (List.map (fun y => Text (Jlist.toj y)) (x :: l))])
  /\ (forall t members, Json.loads_object t = Some members ->
        schema_then_rows (Jpacks.jdictsplit [SqlText t])
          (Jpacks.PyTuple
             (List.map Text
                (Py.sorted Py.item_leb
                   (Jpacks.items (Jpacks.dict_of members))).*1))
          [Jpacks.PyList
             (Py.sorted Py.item_leb
                (Jpacks.items (Jpacks.dict_of members))).*2])
  /\ (forall t members k keys, Json.loads_object t = Some members ->
        schema_then_rows (Jpacks.jdictsplit (SqlText t :: k :: keys))
          (Jpacks.PyTuple (List.map Jpacks.val_of_arg (k :: keys)))
          [Jpacks.PyList
             (List.map (Jpacks.dict_get (Jpacks.dict_of members))
                (k :: keys))])
  /\ (forall full_parse module_name execute parsedArgs largs dictargs q c d,
        full_parse parsedArgs = Ok (largs, dictargs) ->
        dictargs !! "query" = Some q ->
        execute q = Ok c ->
        Igroup.getdescription c = Ok d ->
        schema_then_rows
          (Igroup.stream
             (Igroup.VTiter full_parse module_name execute parsedArgs))
          (Igroup.Description d)
          (List.map Igroup.DataRow (Igroup.rows c)))
  /\ (forall args i, (next (Jpacks.jsplitv args)).1 = Item i ->
        i = Jpacks.PyTuple [Text "C1"])
  /\ (forall args i, (next (Jpacks.jsplit args)).1 = Item i ->
        exists l, Jlist.fromj args = Ok l
          /\ i = Jpacks.PyTuple (Jpacks.column_names (Nat.max 1 (length l))))
  /\ (forall args i, (next (Jpacks.jdictsplit args)).1 = Item i ->
        exists a keys names,
          args = a :: keys /\ i = Jpacks.PyTuple names
          /\ (keys <> [] -> names = List.map Jpacks.val_of_arg keys))
  /\ (forall full_parse module_name execute parsedArgs i,
        (next (Igroup.stream
                 (Igroup.VTiter full_parse module_name execute parsedArgs))).1
        = Item i ->
        exists largs dictargs q c d,
          full_parse parsedArgs = Ok (largs, dictargs)
          /\ dictargs !! "query" = Some q
          /\ execute q = Ok c
          /\ Igroup.getdescription c = Ok d
          /\ i = Igroup.Description d).
Proof.
  repeat apply conj.
  - intros args l H. rewrite (FramingFacts.jsplitv_stream args l H).
    apply FramingFacts.framed.
  - intros args x l H. rewrite (jsplit_nonempty args x l H).
    apply FramingFacts.framed.
  - intros t members H. rewrite (FramingFacts.jdictsplit_all t members H).
    apply FramingFacts.framed.
  - intros t members k keys H.
    rewrite (FramingFacts.jdictsplit_selected t members k keys H).
    apply FramingFacts.framed.
  - intros full_parse module_name execute parsedArgs largs dictargs q c d
      Hp Hq He Hd.
    rewrite (FramingFacts.igroup_stream full_parse module_name execute
               parsedArgs largs dictargs q c d Hp Hq He Hd).
    apply FramingFacts.framed.
  - intros args i H. simpl in H. congruence.
  - intros args i H. destruct (Jlist.fromj args) as [l|e] eqn:Hl.
    + exists l. split; [reflexivity|]. destruct l as [|x l].
      * rewrite (jsplit_empty args Hl) in H. simpl in H.
        injection H as <-. reflexivity.
      * rewrite (jsplit_nonempty args x l Hl) in H. simpl in H.
        injection H as <-. reflexivity.
    + apply GenFacts.next_item in H as [r Hr].
      unfold Jpacks.jsplit in Hr. rewrite GenFacts.trace_lift_bind in Hr.
      rewrite Hl in Hr. discriminate.
  - intros args i H. apply GenFacts.next_item in H as [r Hr].
    unfold Jpacks.jdictsplit in Hr. destruct args as [|a keys];
      [discriminate|].
    rewrite GenFacts.trace_lift_bind in Hr.
    destruct (Jpacks.loads_doc a) as [d|e]; [|discriminate].
    exists a, keys.
    destruct keys; [destruct d|]; simpl in Hr; try discriminate;
      injection Hr as <- _; eexists; (split; [reflexivity|]);
      (split; [reflexivity|]); intros Hk;
      first [reflexivity | destruct (Hk eq_refl)].
  - intros full_parse module_name execute parsedArgs i H.
    apply GenFacts.next_item in H as [r Hr].
    rewrite IgroupFacts.VTiter_cases in Hr.
    destruct (full_parse parsedArgs) as [[largs dictargs]|e];
      [|discriminate].
    cbn [snd] in Hr. destruct (dictargs !! "query") as [q|] eqn:Hq;
      [|discriminate].
    destruct (execute q) as [c|e] eqn:He; [|discriminate].
    destruct (Igroup.getdescription c) as [d|e] eqn:Hd.
    + injection Hr as <- _. exists largs, dictargs, q, c, d. auto.
    + destruct e; discriminate.
Qed.

Lemma C3_schema_first_witness :
  trace (Jpacks.jsplitv [SqlText "[1,2]"])
  = [Jpacks.PyTuple [Text "C1"]; Jpacks.PyList [Text "1"];
     Jpacks.PyList [Text "2"]]
  /\ next_at 0 (Jpacks.jsplit [SqlText "[1,2]"])
     = Item (Jpacks.PyTuple [Text "C1"; Text "C2"])
  /\ forall i, next_at (3 + 4) (Jpacks.jsplitv [SqlText "[1,2]"]) <> Item i.
Proof.
  pose proof C3_schema_first as (Hv & Hh & _).
  destruct (Hv [SqlText "[1,2]"] [Integer 1; Integer 2] eq_refl)
    as (Ht & _ & _ & Hend).
  destruct (Hh [SqlText "[1,2]"] (Integer 1) [Integer 2] eq_refl)
    as (_ & Hfirst & _).
  split; [exact Ht|]. split; [exact Hfirst|]. exact (Hend 4).
Defined.
